(** * params-router: URL <-> parameters, pattern cache, hierarchical scopes

    A shallow embedding of the router sources (util, router, parsing,
    navigation, routable) together with the properties stated for them.

    JavaScript objects used as records or dictionaries are finite maps over
    their own string keys; thrown exceptions are an explicit [Throw] result;
    the module-level variables of router.js and the ambient browser history
    form an explicit [World] threaded through every operation. *)

From stdpp Require Import gmap strings list fin_maps pretty.
From Stdlib Require Import ZArith Ascii String.

Set Warnings "-register-all".

Local Open Scope string_scope.
Local Open Scope Z_scope.

(** ** JavaScript values *)

(** [VNum n] is the Number nearest to the integer [n]: [n] itself when
    [|n| < 2^53]; numbers with a fraction are outside the model.
    [VMember name] is the member [name] that every plain object inherits
    from [Object.prototype]: a native function, or the prototype itself for
    [__proto__]. *)
Inductive value :=
| VUndefined
| VNull
| VBool (b : bool)
| VNum (n : Z)
| VStr (s : string)
| VArr (l : list value)
| VMember (name : string).

(** The own enumerable string keys of a plain object, whose prototype is
    [Object.prototype]. *)
Abbreviation obj := (gmap string value).

(** The property names of [Object.prototype]. *)
Definition Object_prototype : list string :=
  ["constructor"; "__defineGetter__"; "__defineSetter__"; "hasOwnProperty";
   "__lookupGetter__"; "__lookupSetter__"; "isPrototypeOf";
   "propertyIsEnumerable"; "toString"; "valueOf"; "__proto__";
   "toLocaleString"].

(** [k] names a member that a plain object inherits. *)
Definition inherited (k : string) : bool :=
  existsb (String.eqb k) Object_prototype.

(** [obj[k]] on a plain object: the own key if there is one, else the
    member inherited from [Object.prototype], else [undefined]. *)
Definition get (o : obj) (k : string) : value :=
  match o !! k with
  | Some v => v
  | None => if inherited k then VMember k else VUndefined
  end.

(** [{...a, ...b}]: keys of [b] override keys of [a]. *)
Definition spread (a b : obj) : obj := b ∪ a.

(** [x != null] of CoffeeScript / [x ?]: neither [null] nor [undefined]. *)
Definition exists_value (v : value) : bool :=
  match v with VUndefined | VNull => false | _ => true end.

(** *** Number to string *)

Module Number.

(** The double nearest to a non-negative integer, ties to even: 53
    significant bits. *)
Definition round (a : Z) : Z :=
  if a <? 9007199254740992 then a
  else
    let e := Z.log2 a - 52 in
    let q := Z.shiftr a e in
    let r := a - Z.shiftl q e in
    let half := Z.shiftl 1 (e - 1) in
    Z.shiftl (if (half <? r) || ((r =? half) && Z.odd q) then q + 1 else q) e.

(** The decimal with the fewest significant digits that reads back as the
    double [x] of [D] digits: with [k] significant digits there are two
    candidates around [x]; the closer one wins, then the even one. *)
Fixpoint shortest (fuel : nat) (k : Z) (x : Z) (D : Z) : Z :=
  match fuel with
  | O => x
  | S f =>
      let scale := 10 ^ (D - k) in
      let lo := (x / scale) * scale in
      let hi := lo + scale in
      match round lo =? x, round hi =? x with
      | true, true =>
          if x - lo <? hi - x then lo
          else if hi - x <? x - lo then hi
          else if Z.even (lo / scale) then lo else hi
      | true, false => lo
      | false, true => hi
      | false, false => shortest f (k + 1) x D
      end
  end.

Fixpoint strip_zeros (s : string) : string :=
  match s with
  | EmptyString => EmptyString
  | String c r =>
      match strip_zeros r with
      | EmptyString => if Ascii.eqb c "0" then EmptyString else String c EmptyString
      | r' => String c r'
      end
  end.

(** [Number.prototype.toString] on an integer-valued number: the decimal
    numeral up to 21 digits, the shortest digits padded with zeros once
    the number is past the exact range, and the exponent form from
    [1e21]; past the largest double the number is an infinity. *)
Definition toString (n : Z) : string :=
  let a := Z.abs n in
  if a <? 9007199254740992 then pretty n
  else
    let sign := if n <? 0 then "-" else "" in
    let x := round a in
    if 2 ^ 1024 <=? x then sign +:+ "Infinity"
    else
      let c := pretty (shortest 17 1 x (Z.of_nat (String.length (pretty x)))) in
      let n := Z.of_nat (String.length c) in
      if n <=? 21 then sign +:+ c
      else
        match strip_zeros c with
        | EmptyString => sign +:+ c
        | String d EmptyString => sign +:+ String d ("e+" +:+ pretty (n - 1))
        | String d r => sign +:+ String d ("." +:+ r +:+ "e+" +:+ pretty (n - 1))
        end.

End Number.

(** String coercion of an inherited member: the text of a native function
    in the layout the common engines print, the function behind
    [constructor] being named [Object]; [__proto__] is the prototype
    object. *)
Definition member_text (name : string) : string :=
  if String.eqb name "__proto__" then "[object Object]"
  else "function " +:+ (if String.eqb name "constructor" then "Object" else name)
       +:+ "() { [native code] }".

(** String coercion of a value, as in [result += value]. *)
Fixpoint to_string (v : value) : string :=
  match v with
  | VUndefined => "undefined"
  | VNull => "null"
  | VBool true => "true"
  | VBool false => "false"
  | VNum n => Number.toString n
  | VStr s => s
  | VMember name => member_text name
  | VArr l =>
      String.concat ","
        ((fix each (l : list value) : list string :=
            match l with
            | [] => []
            | v :: r => (if exists_value v then to_string v else "") :: each r
            end) l)
  end.

(** Exceptions the modelled code can raise. *)
Inductive error :=
| TypeError
| PatternSyntaxError
| PatternMismatchError (key : string).

Inductive result (A : Type) :=
| Ok (a : A)
| Throw (e : error).
Arguments Ok {A} a.
Arguments Throw {A} e.

(** ** Strings *)

Module Str.

Definition slash : ascii := "/"%char.

Fixpoint drop (n : nat) (s : string) : string :=
  match n, s with
  | O, _ => s
  | S n', String _ r => drop n' r
  | S _, EmptyString => EmptyString
  end.

Fixpoint take (n : nat) (s : string) : string :=
  match n, s with
  | S n', String c r => String c (take n' r)
  | _, _ => EmptyString
  end.

(** Length of the longest prefix whose characters satisfy [p]. *)
Fixpoint span (p : ascii → bool) (s : string) : nat :=
  match s with
  | String c r => if p c then S (span p r) else O
  | EmptyString => O
  end.

Fixpoint all (p : ascii → bool) (s : string) : bool :=
  match s with
  | String c r => p c && all p r
  | EmptyString => true
  end.

Definition is_slash (c : ascii) : bool := Ascii.eqb c slash.

(** [s.startsWith(p)] *)
Fixpoint starts_with (p s : string) : bool :=
  match p, s with
  | EmptyString, _ => true
  | String a p', String b s' => Ascii.eqb a b && starts_with p' s'
  | String _ _, EmptyString => false
  end.

Definition is_empty (s : string) : bool :=
  match s with EmptyString => true | _ => false end.

(** [s || d] on strings: the empty string is falsy. *)
Definition or_else (s d : string) : string := if is_empty s then d else s.

(** Index of the first occurrence of character [c], like [indexOf]. *)
Fixpoint index_of (c : ascii) (s : string) : option nat :=
  match s with
  | EmptyString => None
  | String d r => if Ascii.eqb d c then Some O else S <$> index_of c r
  end.

End Str.

(** ** util *)

(** [isNil]: [[undefined, null].includes(x)]. *)
Definition isNil (v : value) : bool :=
  match v with VUndefined | VNull => true | _ => false end.

(** [omit(keys, obj)]: the entries whose key is not listed. *)
Definition omit (keys : list string) (o : obj) : obj :=
  filter (λ kv, kv.1 ∉ keys) o.

(** [pick(keys, obj)]: one own entry per listed key, holding what
    [obj[k]] reads, an inherited member included; [Object.fromEntries]
    lets a later duplicate overwrite. *)
Definition pick (keys : list string) (o : obj) : obj :=
  foldl (λ acc k, <[k := get o k]> acc) ∅ keys.

(** ** parsing: slash normalisation *)

Module Slashes.
Import Str.

(** First alternative of [LEAD_TRAIL_SLASHES_REGEX], [^(\/+)\/], tried at
    index 0: the greedy group takes the whole leading run but its last
    slash, so the match is the whole run, provided it has two slashes. *)
Definition leading_alt (s : string) : option nat :=
  let n := span is_slash s in
  if (2 <=? n)%nat then Some n else None.

(** Second alternative, [\/+$], tried at the current index: a non-empty
    run of slashes reaching the end of the input. *)
Definition trailing_alt (s : string) : option nat :=
  let n := span is_slash s in
  if (1 <=? n)%nat && is_empty (drop n s) then Some n else None.

(** [str.replace(LEAD_TRAIL_SLASHES_REGEX, "")]: the regex has no [g]
    flag, so only the leftmost match is removed.  [at_start] tells
    whether the current index is 0, where [^] can match. *)
Fixpoint replace_first (at_start : bool) (s : string) : string :=
  match (if at_start then leading_alt s else None) with
  | Some n => drop n s
  | None =>
      match trailing_alt s with
      | Some n => drop n s
      | None =>
          match s with
          | EmptyString => EmptyString
          | String c r => String c (replace_first false r)
          end
      end
  end.

End Slashes.

Definition trimSlashes (str : string) : string := Slashes.replace_first true str.

(** ** External collaborators

    The pattern primitive (url-pattern), the query codec (query-string) and
    the platform URL constructor are consumed through narrow interfaces. *)

Record Location := mkLocation {
  pathname : option string;
  search : option string;
  hash : option string;
  state : option obj }.

(** The object literal [{}] read as a location: every field [undefined]. *)
Definition empty_location : Location := mkLocation None None None None.

Class UrlPatternLib := {
  UrlPattern : Type;
  (** [new UrlPattern(pattern)], which throws on a malformed template *)
  new_UrlPattern : string → result UrlPattern;
  (** [parser.match(path)], [None] standing for [null] *)
  up_match : UrlPattern → string → option obj;
  (** [parser.names] *)
  up_names : UrlPattern → list string;
  (** [parser.stringify(params)] *)
  up_stringify : UrlPattern → obj → result string;
  (** a template that spells a member name of [Object.prototype] is plain
      literal text, which the constructor accepts *)
  members_compile :
    forallb (λ k, match new_UrlPattern k with Ok _ => true | Throw _ => false end)
            Object_prototype = true }.

Class QueryStringLib := {
  (** [qs.parse(str, { parseNumbers: true, parseBooleans: true })];
      [None] is an [undefined] argument *)
  qs_parse : option string → obj;
  (** [qs.stringify(query)] *)
  qs_stringify : obj → string;
  (** [qs.stringifyUrl({ url, query })] *)
  qs_stringifyUrl : string → obj → string }.

Class UrlLib := {
  (** [new URL(arg)] with no base, read through its [pathname], [search]
      and [hash] fields *)
  new_URL : string → result Location }.

(** Calls received by the history object. *)
Inductive NavEvent :=
| HistoryPush (url : string)
| HistoryReplace (url : string).

Section Router.

Context `{UP : UrlPatternLib} `{QS : QueryStringLib} `{UL : UrlLib}.

(** ** Process state

    [defaultPattern] and [parsers] are the module variables of router.js;
    [constructed] is the trace of [new UrlPattern(...)] evaluations made
    by [getParser]; [history_location] is [history.location] and
    [history_calls] the [push]/[replace] calls made so far (latest first). *)
Record World := mkWorld {
  defaultPattern : string;
  parsers : gmap string UrlPattern;
  constructed : list string;
  history_location : Location;
  history_calls : list NavEvent }.

Definition M (A : Type) : Type := World → result A * World.

Definition ret {A} (a : A) : M A := λ w, (Ok a, w).
Definition throw {A} (e : error) : M A := λ w, (Throw e, w).
Definition bind {A B} (m : M A) (k : A → M B) : M B :=
  λ w, match m w with
       | (Ok a, w') => k a w'
       | (Throw e, w') => (Throw e, w')
       end.
Definition lift {A} (r : result A) : M A := λ w, (r, w).

Notation "x <~ m ;; k" := (bind m (λ x, k))
  (at level 100, m at next level, right associativity).

(** ** router.js *)

Definition DEFAULT_PATTERN : string := "(*)".

Definition setPattern (pattern : option string) : M unit :=
  λ w, (Ok tt,
        mkWorld (default DEFAULT_PATTERN pattern) (parsers w) (constructed w)
                (history_location w) (history_calls w)).

(** What [parsers[pattern]] reads, and so what [getParser] returns: a
    parser, or the member of [Object.prototype] that the object literal
    [parsers] inherits under that name. *)
Inductive Fetched :=
| Parser (parser : UrlPattern)
| Member (name : string).

(** An inherited member is truthy: [getParser] returns it as it is, and
    nothing is constructed or stored. *)
Definition getParser (pattern : option string) : M Fetched :=
  λ w,
    let pattern := default (defaultPattern w) pattern in
    match parsers w !! pattern with
    | Some parser => (Ok (Parser parser), w)
    | None =>
        if inherited pattern then (Ok (Member pattern), w)
        else
          let trace := pattern :: constructed w in
          match new_UrlPattern pattern with
          | Ok newParser =>
              (Ok (Parser newParser),
               mkWorld (defaultPattern w) (<[pattern := newParser]> (parsers w))
                       trace (history_location w) (history_calls w))
          | Throw e =>
              (Throw e,
               mkWorld (defaultPattern w) (parsers w) trace
                       (history_location w) (history_calls w))
          end
    end.

(** Using what [getParser] returned as a parser: a member of
    [Object.prototype] has no [match] and no [names], so calling the one,
    or mapping over the other in [pick], is a TypeError. *)
Definition asParser (fetched : Fetched) : result UrlPattern :=
  match fetched with
  | Parser parser => Ok parser
  | Member _ => Throw TypeError
  end.

(** The world right after the modules are loaded, browsing [loc]. *)
Definition initial_world (loc : Location) : result World :=
  match new_UrlPattern DEFAULT_PATTERN with
  | Ok p => Ok (mkWorld DEFAULT_PATTERN {[DEFAULT_PATTERN := p]}
                        [DEFAULT_PATTERN] loc [])
  | Throw e => Throw e
  end.

(** ** parsing.js *)

(** A non-nil first argument of [toParams] / [toOwnParams]. *)
Inductive LocArg :=
| ArgLocation (l : Location)
| ArgString (s : string)
| ArgOther.

Definition parseQueryOrHash (str : option string) : obj := qs_parse str.

Definition toLocation (arg : LocArg) : result Location :=
  match arg with
  | ArgLocation l => Ok l
  | ArgString s => new_URL s
  | ArgOther => Ok empty_location
  end.

(** [isNil(arg) ? history.location : toLocation(arg)] *)
Definition locate (arg : option LocArg) : M Location :=
  match arg with
  | None => λ w, (Ok (history_location w), w)
  | Some a => lift (toLocation a)
  end.

(** Truthiness of a [pattern] argument: [undefined] and [""] are falsy. *)
Definition truthy (pattern : option string) : bool :=
  match pattern with
  | Some s => negb (Str.is_empty s)
  | None => false
  end.

(** [parser.match(trimSlashes(pathname)) || {}]; calling [replace] on an
    [undefined] pathname is a TypeError. *)
Definition matchPathname (parser : UrlPattern) (pathname : option string)
  : result obj :=
  match pathname with
  | Some p => Ok (default ∅ (up_match parser (trimSlashes p)))
  | None => Throw TypeError
  end.

Definition toOwnParams (arg : option LocArg) (pattern : option string) : M obj :=
  location <~ locate arg ;;
  if negb (truthy pattern) then ret ∅
  else
    fetched <~ getParser pattern ;;
    parser <~ lift (asParser fetched) ;;
    lift (matchPathname parser (pathname location)).

(** [{ ...state, ...hashParams, ...searchParams, ...pathParams }] *)
Definition mergeParams (state hashParams searchParams pathParams : obj) : obj :=
  spread (spread (spread state hashParams) searchParams) pathParams.

Definition toParams (arg : option LocArg) (pattern : option string) : M obj :=
  location <~ locate arg ;;
  let state := default ∅ (state location) in
  pathParams <~ toOwnParams arg pattern ;;
  let searchParams := parseQueryOrHash (search location) in
  let hashParams := parseQueryOrHash (hash location) in
  ret (mergeParams state hashParams searchParams pathParams).

(** A destination: literal URL, parameter mapping, update function, or
    any other value. *)
Inductive Dest :=
| DString (s : string)
| DParams (p : obj)
| DUpdate (f : obj → obj)
| DOther.

Definition getCurrParams (pattern : option string) : M obj :=
  λ w, toParams (Some (ArgLocation (history_location w))) pattern w.

Definition parameterize (to : Dest) (pattern : option string) : M obj :=
  match to with
  | DParams p => ret p
  | _ =>
      currParams <~ getCurrParams pattern ;;
      match to with
      | DUpdate f => ret (f currParams)
      | _ => ret currParams
      end
  end.

(** [{ _: "", ...pick(pathnameKeys, params) }] *)
Definition pathnameParams (pathnameKeys : list string) (params : obj) : obj :=
  spread {["_" := VStr ""]} (pick pathnameKeys params).

Definition stringify (params : obj) (pattern : option string) : M string :=
  fetched <~ getParser pattern ;;
  parser <~ lift (asParser fetched) ;;
  let pathnameKeys := up_names parser in
  p <~ lift (up_stringify parser (pathnameParams pathnameKeys params)) ;;
  let pathname := Str.or_else p "/" in
  ret (qs_stringifyUrl pathname (omit pathnameKeys params)).

Definition toUrl (to : Dest) (pattern : option string) : M string :=
  match to with
  | DString s => ret s
  | _ =>
      params <~ parameterize to pattern ;;
      stringify params pattern
  end.

(** The earlier revision of parsing.js (src/parsing.js), suffixed [_v1]:
    no [toOwnParams]; [toParams] always asks [getParser], and [stringify]
    appends the query by hand. *)
Definition toParams_v1 (arg : option LocArg) (pattern : option string) : M obj :=
  location <~ locate arg ;;
  let state := default ∅ (state location) in
  fetched <~ getParser pattern ;;
  parser <~ lift (asParser fetched) ;;
  pathParams <~ lift (matchPathname parser (pathname location)) ;;
  let searchParams := parseQueryOrHash (search location) in
  let hashParams := parseQueryOrHash (hash location) in
  ret (mergeParams state hashParams searchParams pathParams).

Definition getCurrParams_v1 (pattern : option string) : M obj :=
  λ w, toParams_v1 (Some (ArgLocation (history_location w))) pattern w.

Definition parameterize_v1 (to : Dest) (pattern : option string) : M obj :=
  match to with
  | DParams p => ret p
  | _ =>
      currParams <~ getCurrParams_v1 pattern ;;
      match to with
      | DUpdate f => ret (f currParams)
      | _ => ret currParams
      end
  end.

Definition stringify_v1 (params : obj) (pattern : option string) : M string :=
  fetched <~ getParser pattern ;;
  parser <~ lift (asParser fetched) ;;
  let pathnameKeys := up_names parser in
  p <~ lift (up_stringify parser (pathnameParams pathnameKeys params)) ;;
  let pathname := Str.or_else p "/" in
  let search := qs_stringify (omit pathnameKeys params) in
  ret (pathname +:+ (if Str.is_empty search then "" else "?" +:+ search)).

Definition toUrl_v1 (to : Dest) (pattern : option string) : M string :=
  match to with
  | DString s => ret s
  | _ =>
      params <~ parameterize_v1 to pattern ;;
      stringify_v1 params pattern
  end.

(** ** navigation.js *)

(** The options object [{ pattern, replace }]; [None] is an absent key. *)
Record NavOptions := mkNavOptions {
  opt_pattern : option string;
  opt_replace : option bool }.

(** Second argument of [navigate]: omitted, a pattern, or an options object. *)
Inductive PatternOrOptions :=
| POUndefined
| POPattern (s : string)
| POOptions (o : NavOptions).

Definition history_call (ev : NavEvent) : M unit :=
  λ w, (Ok tt,
        mkWorld (defaultPattern w) (parsers w) (constructed w)
                (history_location w) (ev :: history_calls w)).

(** [navigate(to = "", patternOrOptions, replace = false)] *)
Definition navigate (to : option Dest) (patternOrOptions : PatternOrOptions)
    (replace : option bool) : M unit :=
  let to := default (DString "") to in
  let replace := default false replace in
  let '(pattern, _replace) :=
    match patternOrOptions with
    | POOptions o => (opt_pattern o, default false (opt_replace o))
    | POPattern s => (Some s, replace)
    | POUndefined => (None, replace)
    end in
  url <~ toUrl to pattern ;;
  history_call (if _replace then HistoryReplace url else HistoryPush url).

(** The element a click was dispatched on: the two attributes the handler
    reads ([None] when [getAttribute] returns [null]) and its [target]
    property. *)
Record Element := mkElement {
  attr_href : option string;
  attr_replace : option string;
  target : option string }.

Record MouseEvent := mkMouseEvent {
  button : Z;
  defaultPrevented : bool;
  currentTarget : option Element;
  metaKey : bool;
  altKey : bool;
  ctrlKey : bool;
  shiftKey : bool }.

(** [e.preventDefault()] *)
Definition preventDefault (e : MouseEvent) : MouseEvent :=
  mkMouseEvent (button e) true (currentTarget e)
               (metaKey e) (altKey e) (ctrlKey e) (shiftKey e).

(** [![false, "false", null, undefined].includes(el.getAttribute("replace"))] *)
Definition replace_of (el : Element) : bool :=
  match attr_replace el with
  | None => false
  | Some s => negb (String.eqb s "false")
  end.

(** [!target || target === "_self"] *)
Definition own_target (el : Element) : bool :=
  match target el with
  | None => true
  | Some t => Str.is_empty t || String.eqb t "_self"
  end.

(** The anchor click handler; returns the event as the handler leaves it.
    [None] is a call without an event. *)
Definition goTo (e : option MouseEvent) : M (option MouseEvent) :=
  match e with
  | None => ret None
  | Some ev =>
      match currentTarget ev with
      | None => ret (Some ev)
      | Some el =>
          let href := attr_href el in
          let replace := replace_of el in
          let isModified := metaKey ev || altKey ev || ctrlKey ev || shiftKey ev in
          if negb (defaultPrevented ev) && (button ev =? 0) && own_target el
             && negb isModified
          then
            let ev' := preventDefault ev in
            match href with
            | Some h =>
                _ <~ navigate (Some (DString h))
                       (POOptions (mkNavOptions None (Some replace))) None ;;
                ret (Some ev')
            | None => ret (Some ev')
            end
          else ret (Some ev)
      end
  end.

(** ** routable.js *)

(** Argument of [routable]: a template, or [{ params }]. *)
Inductive PatternSpec :=
| SpecString (s : string)
| SpecParams (params : option (list string)).

Definition toPattern (stringOrOptions : PatternSpec) : string :=
  match stringOrOptions with
  | SpecString s => s
  | SpecParams ps =>
      let params := default [] ps in
      if (List.length params <? 1)%nat then ""
      else String.concat "" (map (λ param, "(/:" +:+ param +:+ ")") params)
  end.

(** The value held by a router store.  [RootRouter] is the object
    [{ ownPattern: "", rootPattern: "" }] used when no context exists. *)
Inductive RouterState :=
| RootRouter
| Routable (ownPattern : string) (params : obj) (parent : RouterState)
    (pattern : string) (rootParams : obj) (rootPattern : string) (rest : value).

Definition rootPattern_of (r : RouterState) : string :=
  match r with
  | RootRouter => ""
  | Routable _ _ _ _ _ rootPattern _ => rootPattern
  end.

(** [r.rootParams]; [undefined] on the root object. *)
Definition rootParams_of (r : RouterState) : option obj :=
  match r with
  | RootRouter => None
  | Routable _ _ _ _ rootParams _ _ => Some rootParams
  end.

(** The callback of [derived([loc_, parent_], ...)], for own pattern
    [ownPattern]. *)
Definition derive (ownPattern : string) (loc : Location) (parent : RouterState)
  : M RouterState :=
  let rootPattern := rootPattern_of parent +:+ ownPattern in
  let pattern := rootPattern +:+ "(*)" in
  all <~ toParams (Some (ArgLocation loc)) (Some pattern) ;;
  let rest := match get all "_" with VUndefined => VStr "" | v => v end in
  let params := delete "_" all in
  own <~ toOwnParams (Some (ArgLocation loc)) (Some (rootPattern +:+ "(*)")) ;;
  let rootParams := delete "_" own in
  ret (Routable ownPattern params parent pattern rootParams rootPattern rest).

(** [{ ...parent.rootParams, ...to }] *)
Definition withRootParams (parent : RouterState) (to : obj) : obj :=
  spread (default ∅ (rootParams_of parent)) to.

(** The [goTo] method of a derived router. *)
Definition routable_goTo (r : RouterState) (to : option Dest)
    (options : option NavOptions) : M unit :=
  match r with
  | RootRouter => throw TypeError
  | Routable _ _ parent pattern _ _ _ =>
      let navArg :=
        match to with
        | Some (DParams p) => Some (DParams (withRootParams parent p))
        | _ => to
        end in
      let merged :=
        match options with
        | None => mkNavOptions (Some pattern) None
        | Some o => mkNavOptions (Some (default pattern (opt_pattern o)))
                                 (opt_replace o)
        end in
      navigate navArg (POOptions merged) None
  end.

(** The [href] method of a derived router; [None] is an argument that is
    neither a function nor an object nor a string, returned as it is. *)
Definition routable_href (r : RouterState) (arg : Dest) : M (option string) :=
  match r with
  | RootRouter => throw TypeError
  | Routable _ params parent pattern _ _ _ =>
      match arg with
      | DUpdate fn =>
          u <~ toUrl (DParams (fn (withRootParams parent params))) (Some pattern) ;;
          ret (Some u)
      | DParams newParams =>
          u <~ toUrl (DParams (withRootParams parent newParams)) (Some pattern) ;;
          ret (Some u)
      | DString s => ret (Some s)
      | DOther => ret None
      end
  end.

End Router.

(** ** Reference model of the pattern primitive *)

(** Modelled from the spec: the low-level pattern-matching primitive (the
    url-pattern package), which compiles a path template into a Matcher
    with [match], [names] and [stringify] (section 4.1).  Templates are made
    of literal text, named segments [:name], the catch-all [*] and optional
    groups [( ... )]; strings are read as ASCII text. *)
Module UrlPatternModel.

Inductive node :=
| Wildcard
| Named (name : string)
| Static (text : string)
| Optional (body : list node).

Definition ast := list node.

Definition in_range (lo hi c : ascii) : bool :=
  (nat_of_ascii lo <=? nat_of_ascii c)%nat && (nat_of_ascii c <=? nat_of_ascii hi)%nat.

Definition alnum (c : ascii) : bool :=
  in_range "a" "z" c || in_range "A" "Z" c || in_range "0" "9" c.

(** [segmentNameCharset]: [a-zA-Z0-9] *)
Definition name_char (c : ascii) : bool := alnum c.

(** [segmentValueCharset]: [a-zA-Z0-9-_~ %] *)
Definition value_char (c : ascii) : bool :=
  alnum c || Ascii.eqb c "-" || Ascii.eqb c "_" || Ascii.eqb c "~"
  || Ascii.eqb c " " || Ascii.eqb c "%".

(** ASCII members of the regex class [\s]. *)
Definition whitespace (c : ascii) : bool :=
  let n := nat_of_ascii c in
  ((9 <=? n)%nat && (n <=? 13)%nat) || (n =? 32)%nat.

(** Characters the regex [.] rejects. *)
Definition line_terminator (c : ascii) : bool :=
  let n := nat_of_ascii c in (n =? 10)%nat || (n =? 13)%nat.

(** Characters that end a static run. *)
Definition stop_char (c : ascii) : bool :=
  Ascii.eqb c ":" || Ascii.eqb c "(" || Ascii.eqb c ")" || Ascii.eqb c "*".

(** The loop of [U.static]: characters up to the next stop character, a
    backslash taking the following character literally. *)
Fixpoint static_run (s : string) : string * string :=
  match s with
  | EmptyString => (EmptyString, EmptyString)
  | String c r =>
      if stop_char c then (EmptyString, s)
      else if Ascii.eqb c "\" then
        match r with
        | String d r' =>
            let '(t, rest) := static_run r' in (String d t, rest)
        | EmptyString => (String c EmptyString, EmptyString)
        end
      else
        let '(t, rest) := static_run r in (String c t, rest)
  end.

(** [U.token]: first choice among wildcard, optional, named and static;
    [pattern] parses the body of an optional group. *)
Definition token (pattern : string → option (ast * string)) (s : string)
  : option (node * string) :=
  match s with
  | EmptyString => None
  | String c r =>
      if Ascii.eqb c "*" then Some (Wildcard, r)
      else if Ascii.eqb c "(" then
        match pattern r with
        | Some (body, String d r') =>
            if Ascii.eqb d ")" then Some (Optional body, r') else None
        | _ => None
        end
      else if Ascii.eqb c ":" then
        let n := Str.span name_char r in
        if (1 <=? n)%nat then Some (Named (Str.take n r), Str.drop n r) else None
      else if Ascii.eqb c ")" then None
      else
        let '(t, rest) := static_run s in Some (Static t, rest)
  end.

(** Zero or more tokens; [U.pattern] is [many1], one or more. *)
Fixpoint tokens (fuel : nat) (s : string) : ast * string :=
  match fuel with
  | O => ([], s)
  | S f =>
      let pattern r :=
        match tokens f r with
        | ([], _) => None
        | (ns, rest) => Some (ns, rest)
        end in
      match token pattern s with
      | Some (n, rest) => let '(ns, rest') := tokens f rest in (n :: ns, rest')
      | None => ([], s)
      end
  end.

(** [new UrlPattern(arg1)] for a string argument. *)
Definition compile (s : string) : result ast :=
  if Str.is_empty s then Throw PatternSyntaxError
  else if negb (Str.all (λ c, negb (whitespace c)) s) then Throw PatternSyntaxError
  else
    match tokens (S (String.length s)) s with
    | (n :: ns, EmptyString) => Ok (n :: ns)
    | _ => Throw PatternSyntaxError
    end.

(** [astNodeToNames] *)
Fixpoint node_names (n : node) : list string :=
  match n with
  | Wildcard => ["_"]
  | Named name => [name]
  | Static _ => []
  | Optional body => flat_map node_names body
  end.

Definition names (a : ast) : list string := flat_map node_names a.

(** *** Matching: the generated regular expression, run with backtracking *)

Definition captures := list (option string).
Definition cont := string → captures → option captures.

(** Greedy quantifier: lengths [i], [i-1], ..., [1]. *)
Fixpoint try_down (i : nat) (f : nat → option captures) : option captures :=
  match i with
  | O => None
  | S j => match f i with Some r => Some r | None => try_down j f end
  end.

(** Lazy quantifier: lengths [i], [i+1], ..., [i+count]. *)
Fixpoint try_up (count i : nat) (f : nat → option captures) : option captures :=
  match f i with
  | Some r => Some r
  | None => match count with O => None | S c => try_up c (S i) f end
  end.

(** One node of the regex: [(.*?)], [([charset]+)], the escaped literal,
    or [(?: ... )?].  An optional group that matched the empty string is
    rejected, as the regex engine does for an empty iteration. *)
Fixpoint match_node (n : node) : string → captures → cont → option captures :=
  match n with
  | Wildcard => λ s cs k,
      try_up (Str.span (λ c, negb (line_terminator c)) s) 0
        (λ i, k (Str.drop i s) (cs ++ [Some (Str.take i s)])%list)
  | Named _ => λ s cs k,
      try_down (Str.span value_char s)
        (λ i, k (Str.drop i s) (cs ++ [Some (Str.take i s)])%list)
  | Static t => λ s cs k,
      if Str.starts_with t s then k (Str.drop (String.length t) s) cs else None
  | Optional body => λ s cs k,
      let seq :=
        (fix seq (ns : list node) : string → captures → cont → option captures :=
           match ns with
           | [] => λ s cs k, k s cs
           | n' :: r => λ s cs k, match_node n' s cs (λ s' cs', seq r s' cs' k)
           end) in
      match seq body s cs
              (λ s' cs', if (String.length s' =? String.length s)%nat then None
                         else k s' cs') with
      | Some r => Some r
      | None => k s (cs ++ replicate (List.length (flat_map node_names body)) None)%list
      end
  end.

Fixpoint match_seq (ns : list node) : string → captures → cont → option captures :=
  match ns with
  | [] => λ s cs k, k s cs
  | n :: r => λ s cs k, match_node n s cs (λ s' cs', match_seq r s' cs' k)
  end.

(** [regex.exec(url)] for [^ ... $]: the capture groups, or [None]. *)
Definition exec (a : ast) (url : string) : option captures :=
  match_seq a url [] (λ s cs, if Str.is_empty s then Some cs else None).

(** One step of [keysAndValuesToObject]: [object[key]] is read off a
    plain object, so a value already there, own or inherited, opens an
    array. *)
Definition add_capture (o : obj) (kv : string * option string) : obj :=
  match kv.2 with
  | None => o
  | Some s =>
      match get o kv.1 with
      | VUndefined | VNull => <[kv.1 := VStr s]> o
      | VArr l => <[kv.1 := VArr (l ++ [VStr s])%list]> o
      | old => <[kv.1 := VArr [old; VStr s]]> o
      end
  end.

Definition keysAndValuesToObject (keys : list string) (values : captures) : obj :=
  foldl add_capture ∅ (zip keys values).

(** [UrlPattern.prototype.match] *)
Definition match_url (a : ast) (url : string) : option obj :=
  keysAndValuesToObject (names a) <$> exec a url.

(** *** Stringifying *)

(** [getParam(params, key, nextIndexes, sideEffects)]: the value to use for
    the next occurrence of [key], if there is one.  Under a member name of
    [Object.prototype], [nextIndexes[key] or 0] reads the inherited member
    off the fresh [{}], and later that member with [1] appended to its
    text: never a number, so the index is never past the end, and an array
    has no element there. *)
Definition getParam (params : obj) (key : string) (nextIndexes : gmap string nat)
  : option value :=
  let v := get params key in
  if negb (exists_value v) then None
  else if inherited key then
    Some (match v with VArr _ => VUndefined | _ => v end)
  else
    let index := default O (nextIndexes !! key) in
    match v with
    | VArr l => l !! index
    | _ => if (index =? 0)%nat then Some v else None
    end.

Definition provided (params : obj) (key : string) (nextIndexes : gmap string nat)
  : bool :=
  match getParam params key nextIndexes with
  | Some v => exists_value v
  | None => false
  end.

(** [astNodeContainsSegmentsForProvidedParams] *)
Fixpoint contains_provided (params : obj) (nextIndexes : gmap string nat)
    (n : node) : bool :=
  match n with
  | Wildcard => provided params "_" nextIndexes
  | Named name => provided params name nextIndexes
  | Static _ => false
  | Optional body => existsb (contains_provided params nextIndexes) body
  end.

(** [getParam] with side effects: consume one value or throw. *)
Definition take_param (params : obj) (key : string) (nextIndexes : gmap string nat)
  : result (string * gmap string nat) :=
  match getParam params key nextIndexes with
  | Some v =>
      Ok (to_string v, <[key := S (default O (nextIndexes !! key))]> nextIndexes)
  | None => Throw (PatternMismatchError key)
  end.

Fixpoint stringify_node (params : obj) (n : node) (nextIndexes : gmap string nat)
  : result (string * gmap string nat) :=
  match n with
  | Wildcard => take_param params "_" nextIndexes
  | Named name => take_param params name nextIndexes
  | Static t => Ok (t, nextIndexes)
  | Optional body =>
      if existsb (contains_provided params nextIndexes) body then
        (fix seq (ns : list node) (idx : gmap string nat)
           : result (string * gmap string nat) :=
           match ns with
           | [] => Ok ("", idx)
           | n' :: r =>
               match stringify_node params n' idx with
               | Ok (s1, idx1) =>
                   match seq r idx1 with
                   | Ok (s2, idx2) => Ok (s1 +:+ s2, idx2)
                   | Throw e => Throw e
                   end
               | Throw e => Throw e
               end
           end) body nextIndexes
      else Ok ("", nextIndexes)
  end.

Fixpoint stringify_seq (params : obj) (ns : list node) (idx : gmap string nat)
  : result (string * gmap string nat) :=
  match ns with
  | [] => Ok ("", idx)
  | n :: r =>
      match stringify_node params n idx with
      | Ok (s1, idx1) =>
          match stringify_seq params r idx1 with
          | Ok (s2, idx2) => Ok (s1 +:+ s2, idx2)
          | Throw e => Throw e
          end
      | Throw e => Throw e
      end
  end.

(** [UrlPattern.prototype.stringify] *)
Definition stringify (a : ast) (params : obj) : result string :=
  match stringify_seq params a ∅ with
  | Ok (s, _) => Ok s
  | Throw e => Throw e
  end.

Definition lib : UrlPatternLib :=
  {| UrlPattern := ast;
     new_UrlPattern := compile;
     up_match := match_url;
     up_names := names;
     up_stringify := stringify;
     members_compile := eq_refl |}.

End UrlPatternModel.

(** ** Reference model of the query codec *)

(** Modelled from the spec: the query codec (the query-string package),
    [decode(rawString)] with numeric/boolean coercion and
    [encode(ParameterMapping)] (section 6).  The model covers raw strings
    without percent escapes and numbers written as decimal integers; keys
    are emitted in sorted order. *)
Module QueryStringModel.

Definition is_digit (c : ascii) : bool := UrlPatternModel.in_range "0" "9" c.

Definition digit_value (c : ascii) : Z := Z.of_nat (nat_of_ascii c) - 48.

Fixpoint digits_value (acc : Z) (s : string) : Z :=
  match s with
  | EmptyString => acc
  | String c r => digits_value (10 * acc + digit_value c) r
  end.

(** [Number(value)] on a signed run of decimal digits. *)
Definition parse_integer (s : string) : option Z :=
  let '(neg, body) :=
    match s with
    | String "-" r => (true, r)
    | String "+" r => (false, r)
    | _ => (false, s)
    end in
  if negb (Str.is_empty body) && Str.all is_digit body
  then Some (if neg then - digits_value 0 body else digits_value 0 body)
  else None.

Definition lower (c : ascii) : ascii :=
  if UrlPatternModel.in_range "A" "Z" c then ascii_of_nat (nat_of_ascii c + 32) else c.

Fixpoint lowercase (s : string) : string :=
  match s with
  | EmptyString => EmptyString
  | String c r => String (lower c) (lowercase r)
  end.

(** [parseValue] under [parseNumbers] and [parseBooleans]. *)
Definition parseValue (coerce : bool) (v : value) : value :=
  match v with
  | VStr s =>
      if coerce then
        match parse_integer s with
        | Some n => VNum n
        | None =>
            if String.eqb (lowercase s) "true" then VBool true
            else if String.eqb (lowercase s) "false" then VBool false
            else VStr s
        end
      else VStr s
  | _ => v
  end.

(** [s.split(sep)] *)
Fixpoint split (sep : ascii) (s : string) : list string :=
  match s with
  | EmptyString => [EmptyString]
  | String c r =>
      if Ascii.eqb c sep then EmptyString :: split sep r
      else match split sep r with
           | h :: t => String c h :: t
           | [] => [String c EmptyString]
           end
  end.

Fixpoint plus_to_space (s : string) : string :=
  match s with
  | EmptyString => EmptyString
  | String c r => String (if Ascii.eqb c "+" then " "%char else c) (plus_to_space r)
  end.

(** [splitOnFirst(param, "=")]: key, and value if there is an [=]. *)
Definition splitOnFirst (param : string) : string * value :=
  match Str.index_of "=" param with
  | Some i => (Str.take i param, VStr (Str.drop (S i) param))
  | None => (param, VNull)
  end.

(** The accumulator of the default array format: a repeated key collects
    its values in an array.  The accumulator is created without a
    prototype, so [accumulator[key]] sees own keys only. *)
Definition accumulate (acc : obj) (param : string) : obj :=
  if Str.is_empty param then acc
  else
    let '(key, v) := splitOnFirst (plus_to_space param) in
    match acc !! key with
    | None => <[key := v]> acc
    | Some (VArr l) => <[key := VArr (l ++ [v])%list]> acc
    | Some old => <[key := VArr [old; v]]> acc
    end.

Definition strip_lead (s : string) : string :=
  match s with
  | String c r =>
      if Ascii.eqb c "?" || Ascii.eqb c "#" || Ascii.eqb c "&" then r else s
  | EmptyString => s
  end.

Definition coerce_entry (coerce : bool) (v : value) : value :=
  match v with
  | VArr l => VArr (map (parseValue coerce) l)
  | _ => parseValue coerce v
  end.

(** [qs.parse(query, options)] *)
Definition parse (coerce : bool) (query : option string) : obj :=
  match query with
  | None => ∅
  | Some q =>
      let q := strip_lead q in
      if Str.is_empty q then ∅
      else coerce_entry coerce <$> foldl accumulate ∅ (split "&" q)
  end.

Definition hex_digit (n : nat) : ascii :=
  if (n <? 10)%nat then ascii_of_nat (48 + n) else ascii_of_nat (55 + n).

Definition unreserved (c : ascii) : bool :=
  UrlPatternModel.alnum c || Ascii.eqb c "-" || Ascii.eqb c "_"
  || Ascii.eqb c "." || Ascii.eqb c "~".

(** [strictUriEncode] *)
Fixpoint encode (s : string) : string :=
  match s with
  | EmptyString => EmptyString
  | String c r =>
      if unreserved c then String c (encode r)
      else
        let n := nat_of_ascii c in
        String "%" (String (hex_digit (n / 16)) (String (hex_digit (n mod 16)) (encode r)))
  end.

Fixpoint insert_sorted (kv : string * value) (l : list (string * value))
  : list (string * value) :=
  match l with
  | [] => [kv]
  | h :: t => if String.leb kv.1 h.1 then kv :: l else h :: insert_sorted kv t
  end.

Definition sorted_entries (o : obj) : list (string * value) :=
  foldr insert_sorted [] (map_to_list o).

Definition encode_pair (key : string) (v : value) : list string :=
  match v with
  | VUndefined => []
  | VNull => [encode key]
  | _ => [encode key +:+ "=" +:+ encode (to_string v)]
  end.

Definition encode_entry (kv : string * value) : list string :=
  match kv.2 with
  | VArr l => flat_map (encode_pair kv.1) l
  | v => encode_pair kv.1 v
  end.

(** [qs.stringify(object)] *)
Definition stringify (o : obj) : string :=
  String.concat "&"
    (filter (λ x, x ≠ EmptyString) (flat_map encode_entry (sorted_entries o))).

Definition removeHash (input : string) : string :=
  match Str.index_of "#" input with
  | Some i => Str.take i input
  | None => input
  end.

Definition getHash (url : string) : string :=
  match Str.index_of "#" url with
  | Some i => Str.drop i url
  | None => ""
  end.

Definition extract (input : string) : string :=
  let input := removeHash input in
  match Str.index_of "?" input with
  | Some i => Str.drop (S i) input
  | None => ""
  end.

(** [qs.stringifyUrl({ url, query })] *)
Definition stringifyUrl (url : string) (query : obj) : string :=
  let base := default "" (head (split "?" (removeHash url))) in
  let merged := spread (parse false (Some (extract url))) query in
  let queryString := stringify merged in
  base +:+ (if Str.is_empty queryString then "" else "?" +:+ queryString)
       +:+ getHash url.

Definition lib : QueryStringLib :=
  {| qs_parse := parse true;
     qs_stringify := stringify;
     qs_stringifyUrl := stringifyUrl |}.

End QueryStringModel.

(** ** Reference model of the URL constructor *)

(** Modelled from the spec: the platform collaborator that turns a URL
    string into a Location ([new URL(arg)] with no base).  An input that
    does not begin with a scheme is rejected; an absolute input is split
    into pathname, search and hash without further normalisation. *)
Module UrlModel.

Definition alpha (c : ascii) : bool :=
  UrlPatternModel.in_range "a" "z" c || UrlPatternModel.in_range "A" "Z" c.

Definition scheme_char (c : ascii) : bool :=
  UrlPatternModel.alnum c || Ascii.eqb c "+" || Ascii.eqb c "-" || Ascii.eqb c ".".

(** The text after [scheme:], when the input starts with a scheme. *)
Definition after_scheme (s : string) : option string :=
  match s with
  | String c r =>
      if alpha c then
        let n := Str.span scheme_char r in
        match Str.drop n r with
        | String ":" rest => Some rest
        | _ => None
        end
      else None
  | EmptyString => None
  end.

Definition not_delim (c : ascii) : bool :=
  negb (Ascii.eqb c "/" || Ascii.eqb c "?" || Ascii.eqb c "#").

Definition not_query_delim (c : ascii) : bool :=
  negb (Ascii.eqb c "?" || Ascii.eqb c "#").

Definition not_hash (c : ascii) : bool := negb (Ascii.eqb c "#").

(** A component with its delimiter, empty when nothing follows the
    delimiter. *)
Definition component (s : string) : string :=
  match s with
  | String _ EmptyString => ""
  | _ => s
  end.

Definition construct (s : string) : result Location :=
  match after_scheme s with
  | None => Throw TypeError
  | Some rest =>
      let rest :=
        match rest with
        | String "/" (String "/" r) => Str.drop (Str.span not_delim r) r
        | _ => rest
        end in
      let n := Str.span not_query_delim rest in
      let path := Str.take n rest in
      let rest := Str.drop n rest in
      let m := Str.span not_hash rest in
      Ok (mkLocation (Some (Str.or_else path "/"))
                     (Some (component (Str.take m rest)))
                     (Some (component (Str.drop m rest)))
                     None)
  end.

Definition lib : UrlLib := {| new_URL := construct |}.

End UrlModel.

(** ** Worlds and inputs used in the worked examples *)

(** A browser location as the history object reports it. *)
Definition browse (path query : string) : Location :=
  mkLocation (Some path) (Some query) (Some "") None.

(** ** Vocabulary of the statements *)

(** The value a key takes when four sources are consulted from the highest
    precedence to the lowest. *)
Definition precedence (pathParams searchParams hashParams state : obj)
    (k : string) : option value :=
  match pathParams !! k with
  | Some v => Some v
  | None =>
      match searchParams !! k with
      | Some v => Some v
      | None =>
          match hashParams !! k with
          | Some v => Some v
          | None => state !! k
          end
      end
  end.

Section Vocabulary.

Context `{UP : UrlPatternLib}.

(** Every cached parser is the one its key compiles to: what [getParser]
    establishes and every operation of the library maintains. *)
Definition coherent (w : World) : Prop :=
  ∀ k p, parsers w !! k = Some p → new_UrlPattern k = Ok p.

(** Whether [new UrlPattern(s)] returns. *)
Definition compiles (s : string) : bool :=
  match new_UrlPattern s with Ok _ => true | Throw _ => false end.

(** A series of [getParser] calls, each caller ignoring the outcome. *)
Definition getParser_calls (args : list (option string)) (w : World) : World :=
  foldl (λ w a, (getParser a w).2) w args.

(** The pattern a [getParser] argument denotes in world [w]. *)
Definition effective (w : World) (a : option string) : string :=
  default (defaultPattern w) a.

(** No cached parser stands under a member name of [Object.prototype]:
    [getParser] finds the inherited member first and stores nothing. *)
Definition unshadowed (w : World) : Prop :=
  ∀ k, inherited k = true → parsers w !! k = None.

(** The two invariants of the cache. *)
Definition sound (w : World) : Prop := coherent w ∧ unshadowed w.

(** Two worlds that may differ in the default pattern, in what the cache
    holds, and in the traces, but browse the same location. *)
Definition agree (w1 w2 : World) : Prop :=
  sound w1 ∧ sound w2 ∧ history_location w1 = history_location w2.

(** An operation whose outcome is the same in any two such worlds, and
    which leaves them such. *)
Definition insensitive {A} (m : M A) : Prop :=
  ∀ w1 w2, agree w1 w2 → (m w1).1 = (m w2).1 ∧ agree (m w1).2 (m w2).2.

(** An operation that keeps the cache coherent. *)
Definition preserving {A} (m : M A) : Prop :=
  ∀ w, coherent w → coherent (m w).2.

End Vocabulary.

Section Runs.

Context `{UP : UrlPatternLib} `{QS : QueryStringLib} `{UL : UrlLib}.

(** The worlds a program can be in while the browser stays at [loc]: the
    modules are loaded, then [setPattern] and the parsing operations are
    called any number of times with any arguments. *)
Inductive reachable (loc : Location) : World → Prop :=
| reach_load w :
    initial_world loc = Ok w → reachable loc w
| reach_setPattern w a :
    reachable loc w → reachable loc (setPattern a w).2
| reach_getParser w a :
    reachable loc w → reachable loc (getParser a w).2
| reach_toOwnParams w arg pattern :
    reachable loc w → reachable loc (toOwnParams arg pattern w).2
| reach_toParams w arg pattern :
    reachable loc w → reachable loc (toParams arg pattern w).2
| reach_toUrl w to pattern :
    reachable loc w → reachable loc (toUrl to pattern w).2.

End Runs.

(** Every failure of the model stringifier is a pattern mismatch. *)
Definition mismatch_only (r : result (string * gmap string nat)) : Prop :=
  match r with
  | Ok _ => True
  | Throw e => ∃ key, e = PatternMismatchError key
  end.

(** The guard of the anchor click handler. *)
Definition intercepts (ev : MouseEvent) (el : Element) : bool :=
  negb (defaultPrevented ev) && (button ev =? 0) && own_target el
  && negb (metaKey ev || altKey ev || ctrlKey ev || shiftKey ev).

(** The event of a plain primary click on an anchor that has no [href]. *)
Definition click_without_href : MouseEvent :=
  mkMouseEvent 0 false (Some (mkElement None None (Some ""))) false false false false.

(** The world of the reference models right after the modules are loaded,
    browsing [loc]: the default pattern is cached, nothing else. *)
Definition loaded (loc : Location) : World (UP := UrlPatternModel.lib) :=
  mkWorld (UP := UrlPatternModel.lib) "(*)"
    {[ "(*)" := [UrlPatternModel.Optional [UrlPatternModel.Wildcard]] ]}
    ["(*)"] loc [].

(** The scope of an ancestor with pattern [/admin/:adminId] and, below it,
    the scope of a descendant with own pattern [/users/:userId], both
    derived at [/admin/3/users/7] with the reference models. *)
Definition admin_scope : RouterState :=
  Routable "/admin/:adminId"
    {[ "adminId" := VStr "3" ]} RootRouter "/admin/:adminId(*)"
    {[ "adminId" := VStr "3" ]} "/admin/:adminId" (VStr "/users/7").

Definition user_scope : RouterState :=
  Routable "/users/:userId"
    {[ "adminId" := VStr "3"; "userId" := VStr "7" ]} admin_scope
    "/admin/:adminId/users/:userId(*)"
    {[ "adminId" := VStr "3"; "userId" := VStr "7" ]}
    "/admin/:adminId/users/:userId" (VStr "").

(** The scopes of the hierarchical example: ancestor pattern [/admin],
    own pattern [/users/:userId], both derived at [/admin/users/7?adminId=3]
    with the reference models. *)
Definition plain_admin_scope : RouterState :=
  Routable "/admin" {[ "adminId" := VNum 3 ]} RootRouter "/admin(*)"
    ∅ "/admin" (VStr "/users/7").

Definition plain_user_scope : RouterState :=
  Routable "/users/:userId"
    {[ "adminId" := VNum 3; "userId" := VStr "7" ]} plain_admin_scope
    "/admin/users/:userId(*)" {[ "userId" := VStr "7" ]}
    "/admin/users/:userId" (VStr "").

Definition params_of (r : RouterState) : option obj :=
  match r with
  | RootRouter => None
  | Routable _ params _ _ _ _ _ => Some params
  end.

Definition rest_of (r : RouterState) : option value :=
  match r with
  | RootRouter => None
  | Routable _ _ _ _ _ _ rest => Some rest
  end.

(** ** Vocabulary of the further properties *)

(** A run of [n] slashes. *)
Fixpoint slashes (n : nat) : string :=
  match n with
  | O => EmptyString
  | S k => String "/" (slashes k)
  end.

(** Whether the last character of a string is a slash. *)
Fixpoint ends_with_slash (s : string) : bool :=
  match s with
  | EmptyString => false
  | String c r =>
      match r with
      | EmptyString => Str.is_slash c
      | String _ _ => ends_with_slash r
      end
  end.

Section FurtherVocabulary.

Context `{UP : UrlPatternLib}.

(** An operation that leaves the default pattern and the history alone and
    at most adds entries to the parser cache. *)
Definition cache_only {A} (m : M A) : Prop :=
  ∀ w, defaultPattern (m w).2 = defaultPattern w
       ∧ history_location (m w).2 = history_location w
       ∧ history_calls (m w).2 = history_calls w
       ∧ parsers w ⊆ parsers (m w).2.

End FurtherVocabulary.

Section ScopeVocabulary.

Context `{QS : QueryStringLib}.

(** The scope [derive] builds from the pathname parameters [pp] that
    [toOwnParams] extracts against the full pattern. *)
Definition scope_of (ownPattern : string) (loc : Location) (parent : RouterState)
    (pp : obj) : RouterState :=
  let rootPattern := rootPattern_of parent +:+ ownPattern in
  let all := mergeParams (default ∅ (state loc)) (qs_parse (hash loc))
               (qs_parse (search loc)) pp in
  Routable ownPattern (delete "_" all) parent (rootPattern +:+ "(*)")
    (delete "_" pp) rootPattern
    (match get all "_" with VUndefined => VStr "" | v => v end).

End ScopeVocabulary.

(** The optional group one declared parameter name expands to, as a
    template and as the node the reference model compiles it to. *)
Fixpoint groups_text (names : list string) : string :=
  match names with
  | [] => EmptyString
  | n :: r => String "(" (String "/" (String ":" (n +:+ String ")" (groups_text r))))
  end.

Definition param_group (n : string) : UrlPatternModel.node :=
  UrlPatternModel.Optional [UrlPatternModel.Static "/"; UrlPatternModel.Named n].

(** A parameter name the template syntax can carry: letters and digits,
    at least one. *)
Definition valid_name (n : string) : Prop :=
  n ≠ "" ∧ Str.all UrlPatternModel.name_char n = true.

(** * Properties *)

(** ** Objects *)

Lemma lookup_spread (a b : obj) (k : string) :
  spread a b !! k = match b !! k with Some v => Some v | None => a !! k end.
Proof.
  unfold spread. rewrite lookup_union. destruct (b !! k), (a !! k); reflexivity.
Qed.

Lemma lookup_pick_elem (keys : list string) (o : obj) (k : string) :
  k ∈ keys → pick keys o !! k = Some (get o k).
Proof.
  unfold pick. generalize (∅ : obj).
  induction keys as [|x keys IH]; intros acc Hk.
  - by apply elem_of_nil in Hk.
  - simpl. destruct (decide (k ∈ keys)) as [Hin|Hnot].
    + by apply IH.
    + apply elem_of_cons in Hk as [->|?]; [|done].
      clear IH. revert acc. induction keys as [|y keys IH]; intros acc.
      * simpl. apply lookup_insert_eq.
      * simpl. apply not_elem_of_cons in Hnot as [Hne Hnot].
        rewrite insert_insert_ne by done. by apply IH.
Qed.

Lemma lookup_omit (keys : list string) (o : obj) (k : string) :
  omit keys o !! k = if decide (k ∈ keys) then None else o !! k.
Proof.
  unfold omit. destruct (decide (k ∈ keys)) as [Hin|Hnot].
  - apply map_lookup_filter_None. right. intros v _ Hn. by apply Hn.
  - destruct (o !! k) as [v|] eqn:E.
    + apply map_lookup_filter_Some. done.
    + apply map_lookup_filter_None. by left.
Qed.

(** ** Slash normalisation *)

(** C7: [trimSlashes] does not map the pathnames [//users/42], [/users/42/]
    and [/users/42///] to one canonical form: two or more leading slashes
    are all removed, none is retained, and then the trailing run is left in
    place, whereas a single leading slash is kept and the trailing run
    stripped. *)
Theorem trimSlashes_double_leading_slash :
  trimSlashes "//users/42" = "users/42"
  ∧ trimSlashes "//users/42/" = "users/42/"
  ∧ trimSlashes "/users/42/" = "/users/42"
  ∧ trimSlashes "/users/42///" = "/users/42"
  ∧ trimSlashes "/users/42" = "/users/42".
Proof. repeat split; reflexivity. Qed.

(** Whenever the input starts with two slashes, the whole leading run is
    removed: what is left does not start with a slash. *)
Lemma span_drop_not_slash (s : string) :
  Str.starts_with "/" (Str.drop (Str.span Str.is_slash s) s) = false.
Proof.
  induction s as [|c r IH]; [done|].
  cbn [Str.span]. destruct (Str.is_slash c) eqn:E; [exact IH|].
  cbn [Str.drop Str.starts_with]. unfold Str.is_slash, Str.slash in E.
  rewrite Ascii.eqb_sym, E. done.
Qed.

(** X5: on a string that starts with two or more slashes, [trimSlashes]
    removes the whole leading run and nothing else: what is left does not
    start with a slash, and a trailing run stays in place. *)
Lemma trimSlashes_drops_leading_run (s : string) :
  Str.starts_with "//" s = true →
  trimSlashes s = Str.drop (Str.span Str.is_slash s) s
  ∧ Str.starts_with "/" (trimSlashes s) = false.
Proof.
  intros H.
  assert (Hn : (2 <=? Str.span Str.is_slash s)%nat = true).
  { destruct s as [|a [|b r]]; cbn [Str.starts_with] in H; try discriminate;
      apply andb_prop in H as [Ha Hb]; try discriminate.
    apply andb_prop in Hb as [Hb _].
    apply Ascii.eqb_eq in Ha as <-. apply Ascii.eqb_eq in Hb as <-.
    reflexivity. }
  assert (Ht : trimSlashes s = Str.drop (Str.span Str.is_slash s) s).
  { unfold trimSlashes. destruct s as [|a r]; [done|].
    unfold Slashes.replace_first, Slashes.leading_alt. by rewrite Hn. }
  split; [done|]. rewrite Ht. apply span_drop_not_slash.
Qed.

Section RouterFacts.

Context `{UP : UrlPatternLib} `{QS : QueryStringLib} `{UL : UrlLib}.

Lemma lookup_mergeParams (st h q p : obj) (k : string) :
  mergeParams st h q p !! k = precedence p q h st k.
Proof.
  unfold mergeParams, precedence. rewrite !lookup_spread.
  destruct (p !! k), (q !! k), (h !! k); reflexivity.
Qed.

(** [toParams] on a Location object, in terms of [toOwnParams]. *)
Lemma toParams_location (w : World) (loc : Location) (pattern : option string) :
  toParams (Some (ArgLocation loc)) pattern w =
  match toOwnParams (Some (ArgLocation loc)) pattern w with
  | (Ok pathParams, w') =>
      (Ok (mergeParams (default ∅ (state loc)) (qs_parse (hash loc))
             (qs_parse (search loc)) pathParams), w')
  | (Throw e, w') => (Throw e, w')
  end.
Proof.
  unfold toParams, bind, locate, lift, toLocation, ret, parseQueryOrHash.
  destruct (toOwnParams _ _ _) as [[?|?] ?]; reflexivity.
Qed.

Lemma toParams_v1_location (w : World) (loc : Location) (pattern : option string) :
  toParams_v1 (Some (ArgLocation loc)) pattern w =
  match getParser pattern w with
  | (Ok (Parser parser), w') =>
      match matchPathname parser (pathname loc) with
      | Ok pathParams =>
          (Ok (mergeParams (default ∅ (state loc)) (qs_parse (hash loc))
                 (qs_parse (search loc)) pathParams), w')
      | Throw e => (Throw e, w')
      end
  | (Ok (Member _), w') => (Throw TypeError, w')
  | (Throw e, w') => (Throw e, w')
  end.
Proof.
  unfold toParams_v1, bind, locate, lift, toLocation, ret, parseQueryOrHash.
  destruct (getParser _ _) as [[[parser|m]|?] ?]; reflexivity.
Qed.

End RouterFacts.

(** ** Merge precedence *)

(** C1: on every location with its four fields and every pattern whose
    path extraction returns, [toParams] returns, and each key of the result
    takes its value from the highest-precedence source that has it, in the
    order state < hash < search < pathname; this holds for both revisions of
    parsing.js.  With pathname [/users/42], search [id=99] and pattern
    [/users/:id] the query offers [id = 99] and the result has
    [id = "42"]. *)
Theorem toParams_merge_precedence :
  (∀ (UP : UrlPatternLib) (QS : QueryStringLib) (UL : UrlLib) (w : World)
     (path query fragment : string) (st : option obj)
     (pattern : option string) (pathParams : obj),
     let loc := mkLocation (Some path) (Some query) (Some fragment) st in
     (toOwnParams (Some (ArgLocation loc)) pattern w).1 = Ok pathParams →
     ∃ r, (toParams (Some (ArgLocation loc)) pattern w).1 = Ok r
          ∧ ∀ k, r !! k = precedence pathParams (qs_parse (Some query))
                            (qs_parse (Some fragment)) (default ∅ st) k)
  ∧ (∀ (UP : UrlPatternLib) (QS : QueryStringLib) (UL : UrlLib) (w : World)
       (path query fragment : string) (st : option obj)
       (pattern : option string) (parser : UrlPattern),
       let loc := mkLocation (Some path) (Some query) (Some fragment) st in
       (getParser pattern w).1 = Ok (Parser parser) →
       ∃ r, (toParams_v1 (Some (ArgLocation loc)) pattern w).1 = Ok r
            ∧ ∀ k, r !! k = precedence
                              (default ∅ (up_match parser (trimSlashes path)))
                              (qs_parse (Some query)) (qs_parse (Some fragment))
                              (default ∅ st) k)
  ∧ (let loc := mkLocation (Some "/users/42") (Some "id=99") (Some "") None in
     initial_world (UP := UrlPatternModel.lib) loc = Ok (loaded loc)
     ∧ qs_parse (QueryStringLib := QueryStringModel.lib) (Some "id=99") !! "id"
       = Some (VNum 99)
     ∧ (toParams (UP := UrlPatternModel.lib) (QS := QueryStringModel.lib)
          (UL := UrlModel.lib) (Some (ArgLocation loc)) (Some "/users/:id")
          (loaded loc)).1 = Ok {[ "id" := VStr "42" ]}
     ∧ (toParams_v1 (UP := UrlPatternModel.lib) (QS := QueryStringModel.lib)
          (UL := UrlModel.lib) (Some (ArgLocation loc)) (Some "/users/:id")
          (loaded loc)).1 = Ok {[ "id" := VStr "42" ]}).
Proof.
  split; [|split].
  - intros UP QS UL w path query fragment st pattern pathParams loc Hown.
    rewrite toParams_location.
    destruct (toOwnParams _ _ _) as [[own|e] w'] eqn:E; simpl in Hown; [|done].
    injection Hown as ->. eexists. split; [reflexivity|].
    intros k. apply lookup_mergeParams.
  - intros UP QS UL w path query fragment st pattern parser loc Hp.
    rewrite toParams_v1_location.
    destruct (getParser _ _) as [[q|e] w'] eqn:E; simpl in Hp; [|done].
    injection Hp as ->. eexists. split; [reflexivity|].
    intros k. apply lookup_mergeParams.
  - repeat split; vm_compute; reflexivity.
Qed.

Lemma toParams_merge_precedence_witness :
  ∃ r, (toParams (UP := UrlPatternModel.lib) (QS := QueryStringModel.lib)
          (UL := UrlModel.lib)
          (Some (ArgLocation (mkLocation (Some "/users/42") (Some "id=99")
                                (Some "tab=a") (Some {[ "id" := VNum 1 ]}))))
          (Some "/users/:id") (loaded empty_location)).1 = Ok r
       ∧ ∀ k, r !! k = precedence {[ "id" := VStr "42" ]}
                         (qs_parse (QueryStringLib := QueryStringModel.lib) (Some "id=99"))
                         (qs_parse (QueryStringLib := QueryStringModel.lib) (Some "tab=a"))
                         (default ∅ (Some {[ "id" := VNum 1 ]})) k.
Proof.
  apply (proj1 toParams_merge_precedence UrlPatternModel.lib QueryStringModel.lib
           UrlModel.lib (loaded empty_location) "/users/42" "id=99" "tab=a"
           (Some {[ "id" := VNum 1 ]}) (Some "/users/:id") {[ "id" := VStr "42" ]}).
  vm_compute. reflexivity.
Defined.

(** ** The anchor click handler *)

Section ClickFacts.

Context `{UP : UrlPatternLib} `{QS : QueryStringLib} `{UL : UrlLib}.

(** Outside the guard the event is left as it was and nothing is called. *)
Lemma goTo_untouched (w : World) (ev : MouseEvent) (el : Element) :
  currentTarget ev = Some el → intercepts ev el = false →
  goTo (Some ev) w = (Ok (Some ev), w).
Proof.
  unfold goTo, intercepts. intros -> Hg. by rewrite Hg.
Qed.

(** Inside the guard, with a string [href], the default is prevented and
    [navigate] runs on the [href]. *)
Lemma goTo_navigates (w : World) (ev : MouseEvent) (el : Element) (h : string) :
  currentTarget ev = Some el → intercepts ev el = true → attr_href el = Some h →
  goTo (Some ev) w =
  (Ok (Some (preventDefault ev)),
   mkWorld (defaultPattern w) (parsers w) (constructed w) (history_location w)
     ((if replace_of el then HistoryReplace h else HistoryPush h) :: history_calls w)).
Proof.
  unfold goTo, intercepts. intros -> Hg ->. rewrite Hg.
  unfold bind, navigate, toUrl, ret, history_call. simpl.
  by destruct (replace_of el).
Qed.

End ClickFacts.

(** C9: on a plain primary click (no modifier key, no target, default not
    yet prevented) on an element without an [href] attribute, the handler
    calls [preventDefault] although it does not navigate: the default
    handling is not left untouched. *)
Theorem goTo_prevents_default_without_href :
  ∀ (UP : UrlPatternLib) (QS : QueryStringLib) (UL : UrlLib) (w : World),
    defaultPrevented click_without_href = false
    ∧ (attr_href <$> currentTarget click_without_href) = Some None
    ∧ goTo (Some click_without_href) w
      = (Ok (Some (preventDefault click_without_href)), w)
    ∧ defaultPrevented (preventDefault click_without_href) = true.
Proof. intros. repeat split. Qed.

(** ** The parser cache *)

Section CacheFacts.

Context `{UP : UrlPatternLib}.

(** The constructor accepts the member names of [Object.prototype]. *)
Lemma member_compiles (k : string) : inherited k = true → compiles k = true.
Proof.
  unfold inherited, compiles. intros H.
  apply existsb_exists in H as (x & Hx & Hk). apply String.eqb_eq in Hk as <-.
  pose proof members_compile as Hall.
  rewrite forallb_forall in Hall. exact (Hall k Hx).
Qed.

Lemma getParser_defaultPattern (a : option string) (w : World) :
  defaultPattern (getParser a w).2 = defaultPattern w.
Proof.
  unfold getParser. destruct (parsers w !! _); [done|].
  destruct (inherited _); [done|]. by destruct (new_UrlPattern _).
Qed.

Lemma getParser_history (a : option string) (w : World) :
  history_location (getParser a w).2 = history_location w
  ∧ history_calls (getParser a w).2 = history_calls w.
Proof.
  unfold getParser. destruct (parsers w !! _); [done|].
  destruct (inherited _); [done|]. by destruct (new_UrlPattern _).
Qed.

(** A hit leaves the world alone. *)
Lemma getParser_hit (a : option string) (w : World) (p : UrlPattern) :
  parsers w !! effective w a = Some p → getParser a w = (Ok (Parser p), w).
Proof. unfold getParser, effective. by intros ->. Qed.

(** What a call leaves in the cache under its own key. *)
Lemma getParser_cached (a : option string) (w w1 : World) (p : UrlPattern) :
  getParser a w = (Ok (Parser p), w1) → parsers w1 !! effective w a = Some p.
Proof.
  unfold getParser, effective.
  destruct (parsers w !! _) eqn:E.
  - by intros [= <- <-].
  - destruct (inherited _); [done|].
    destruct (new_UrlPattern _); intros [= <- <-]. simpl. apply lookup_insert_eq.
Qed.


(** When an inherited member comes back, the world is as it was. *)
Lemma getParser_member (a : option string) (w w1 : World) (m : string) :
  getParser a w = (Ok (Member m), w1) →
  w1 = w ∧ m = effective w a ∧ inherited m = true.
Proof.
  unfold getParser, effective.
  destruct (parsers w !! _) eqn:E; [done|].
  destruct (inherited _) eqn:I.
  - by intros [= <- <-].
  - by destruct (new_UrlPattern _).
Qed.


Lemma getParser_grows (a : option string) (w : World) :
  parsers w ⊆ parsers (getParser a w).2.
Proof.
  unfold getParser.
  destruct (parsers w !! default _ a) eqn:E; [done|].
  destruct (inherited _); [done|].
  destruct (new_UrlPattern _); simpl; [|done].
  by apply insert_subseteq.
Qed.


Lemma getParser_preserves_coherent (a : option string) (w : World) :
  coherent w → coherent (getParser a w).2.
Proof.
  unfold getParser, coherent. intros Hc.
  destruct (parsers w !! default _ a) eqn:E; [done|].
  destruct (inherited _); [done|].
  destruct (new_UrlPattern _) eqn:N; simpl; [|done].
  intros k p. rewrite lookup_insert. case_decide as Hk.
  - intros [= <-]. by subst k.
  - apply Hc.
Qed.

Lemma getParser_preserves_unshadowed (a : option string) (w : World) :
  unshadowed w → unshadowed (getParser a w).2.
Proof.
  unfold getParser, unshadowed. intros Hc.
  destruct (parsers w !! default _ a) eqn:E; [done|].
  destruct (inherited _) eqn:I; [done|].
  destruct (new_UrlPattern _) eqn:N; simpl; [|done].
  intros k Hk. rewrite lookup_insert. case_decide as Hd; [|by apply Hc].
  subst k. congruence.
Qed.

Lemma getParser_preserves_sound (a : option string) (w : World) :
  sound w → sound (getParser a w).2.
Proof.
  intros [Hc Hu].
  split; [by apply getParser_preserves_coherent
         |by apply getParser_preserves_unshadowed].
Qed.

(** The same call again returns the same parser and changes nothing. *)
Lemma getParser_repeat (a : option string) (w w1 : World) (p : UrlPattern) :
  getParser a w = (Ok (Parser p), w1) → getParser a w1 = (Ok (Parser p), w1).
Proof.
  intros H. apply getParser_hit.
  pose proof (getParser_cached _ _ _ _ H) as Hc.
  pose proof (getParser_defaultPattern a w) as Hd. rewrite H in Hd.
  unfold effective in *. simpl in Hd. by rewrite Hd.
Qed.




End CacheFacts.




(** ** Independence from the default pattern and from the cache *)

Section Noninterference.

Context `{UP : UrlPatternLib} `{QS : QueryStringLib} `{UL : UrlLib}.

Lemma insensitive_ret {A} (a : A) : insensitive (ret a).
Proof. by intros w1 w2 H. Qed.

Lemma insensitive_lift {A} (r : result A) : insensitive (lift r).
Proof. by intros w1 w2 H. Qed.

Lemma insensitive_bind {A B} (m : M A) (k : A → M B) :
  insensitive m → (∀ a, insensitive (k a)) → insensitive (bind m k).
Proof.
  intros Hm Hk w1 w2 H. destruct (Hm w1 w2 H) as [Hr Ha].
  unfold bind.
  destruct (m w1) as [[a1|e1] w1'], (m w2) as [[a2|e2] w2']; simpl in *;
    try discriminate.
  - injection Hr as ->. by apply Hk.
  - injection Hr as ->. done.
Qed.

(** With a coherent cache, what an explicit pattern fetches is a function
    of the pattern alone. *)
Lemma getParser_explicit (pat : string) (w : World) :
  coherent w → inherited pat = false →
  (getParser (Some pat) w).1
  = match new_UrlPattern pat with
    | Ok p => Ok (Parser p)
    | Throw e => Throw e
    end.
Proof.
  intros Hc Hi. unfold getParser. simpl.
  destruct (parsers w !! pat) as [p|] eqn:E.
  - simpl. by rewrite (Hc _ _ E).
  - rewrite Hi. by destruct (new_UrlPattern pat).
Qed.

Lemma getParser_inherited (pat : string) (w : World) :
  unshadowed w → inherited pat = true →
  getParser (Some pat) w = (Ok (Member pat), w).
Proof.
  intros Hu Hi. unfold getParser. simpl. by rewrite (Hu _ Hi), Hi.
Qed.

Lemma insensitive_getParser (pat : string) : insensitive (getParser (Some pat)).
Proof.
  intros w1 w2 ([Hc1 Hu1] & [Hc2 Hu2] & Hl). split.
  - destruct (inherited pat) eqn:Hi.
    + by rewrite !getParser_inherited.
    + by rewrite !getParser_explicit.
  - split; [by apply getParser_preserves_sound|].
    split; [by apply getParser_preserves_sound|].
    destruct (getParser_history (Some pat) w1) as [-> _].
    by destruct (getParser_history (Some pat) w2) as [-> _].
Qed.

Lemma insensitive_locate (arg : option LocArg) : insensitive (locate arg).
Proof.
  destruct arg; [apply insensitive_lift|].
  intros w1 w2 H. split; [|done]. simpl. f_equal. apply H.
Qed.

Lemma insensitive_toOwnParams arg (pat : string) :
  insensitive (toOwnParams arg (Some pat)).
Proof.
  unfold toOwnParams. apply insensitive_bind; [apply insensitive_locate|].
  intros loc. destruct (negb _); [apply insensitive_ret|].
  apply insensitive_bind; [apply insensitive_getParser|].
  intros fetched. apply insensitive_bind; [apply insensitive_lift|].
  intros parser. apply insensitive_lift.
Qed.

Lemma insensitive_toParams arg (pat : string) :
  insensitive (toParams arg (Some pat)).
Proof.
  unfold toParams. apply insensitive_bind; [apply insensitive_locate|].
  intros loc. apply insensitive_bind; [apply insensitive_toOwnParams|].
  intros own. apply insensitive_ret.
Qed.

Lemma insensitive_toParams_v1 arg (pat : string) :
  insensitive (toParams_v1 arg (Some pat)).
Proof.
  unfold toParams_v1. apply insensitive_bind; [apply insensitive_locate|].
  intros loc. apply insensitive_bind; [apply insensitive_getParser|].
  intros fetched. apply insensitive_bind; [apply insensitive_lift|].
  intros parser. apply insensitive_bind; [apply insensitive_lift|].
  intros own. apply insensitive_ret.
Qed.

Lemma insensitive_getCurrParams (pat : string) :
  insensitive (getCurrParams (Some pat)).
Proof.
  intros w1 w2 H. unfold getCurrParams.
  destruct H as (H1 & H2 & Hl). rewrite Hl.
  by apply insensitive_toParams.
Qed.

Lemma insensitive_stringify (params : obj) (pat : string) :
  insensitive (stringify params (Some pat)).
Proof.
  unfold stringify. apply insensitive_bind; [apply insensitive_getParser|].
  intros fetched. apply insensitive_bind; [apply insensitive_lift|].
  intros parser. apply insensitive_bind; [apply insensitive_lift|].
  intros path. apply insensitive_ret.
Qed.

Lemma insensitive_toUrl (to : Dest) (pat : string) :
  insensitive (toUrl to (Some pat)).
Proof.
  unfold toUrl, parameterize.
  destruct to as [s|p|f|]; try apply insensitive_ret.
  - apply insensitive_bind; [apply insensitive_ret|].
    intros. apply insensitive_stringify.
  - apply insensitive_bind.
    + apply insensitive_bind; [apply insensitive_getCurrParams|].
      intros. apply insensitive_ret.
    + intros. apply insensitive_stringify.
  - apply insensitive_bind.
    + apply insensitive_bind; [apply insensitive_getCurrParams|].
      intros. apply insensitive_ret.
    + intros. apply insensitive_stringify.
Qed.

(** Coherence of the cache is maintained by every operation, whatever the
    pattern argument. *)
Lemma preserving_ret {A} (a : A) : preserving (ret a).
Proof. by intros w H. Qed.

Lemma preserving_lift {A} (r : result A) : preserving (lift r).
Proof. by intros w H. Qed.

Lemma preserving_bind {A B} (m : M A) (k : A → M B) :
  preserving m → (∀ a, preserving (k a)) → preserving (bind m k).
Proof.
  intros Hm Hk w H. specialize (Hm w H). unfold bind.
  destruct (m w) as [[a|e] w']; simpl in *; [by apply Hk|done].
Qed.

Lemma preserving_getParser a : preserving (getParser a).
Proof. intros w. apply getParser_preserves_coherent. Qed.

Lemma preserving_setPattern a : preserving (setPattern a).
Proof. by intros w H. Qed.

Lemma preserving_locate arg : preserving (locate arg).
Proof. destruct arg; by intros w H. Qed.

Lemma preserving_toOwnParams arg pattern : preserving (toOwnParams arg pattern).
Proof.
  unfold toOwnParams. apply preserving_bind; [apply preserving_locate|].
  intros loc. destruct (negb _); [apply preserving_ret|].
  apply preserving_bind; [apply preserving_getParser|].
  intros fetched. apply preserving_bind; [apply preserving_lift|].
  intros parser. apply preserving_lift.
Qed.

Lemma preserving_toParams arg pattern : preserving (toParams arg pattern).
Proof.
  unfold toParams. apply preserving_bind; [apply preserving_locate|].
  intros loc. apply preserving_bind; [apply preserving_toOwnParams|].
  intros. apply preserving_ret.
Qed.

Lemma preserving_stringify params pattern : preserving (stringify params pattern).
Proof.
  unfold stringify. apply preserving_bind; [apply preserving_getParser|].
  intros fetched. apply preserving_bind; [apply preserving_lift|].
  intros parser. apply preserving_bind; [apply preserving_lift|].
  intros. apply preserving_ret.
Qed.

Lemma preserving_toUrl to pattern : preserving (toUrl to pattern).
Proof.
  assert (Hcur : preserving (getCurrParams pattern)).
  { intros w H. unfold getCurrParams. by apply preserving_toParams. }
  unfold toUrl, parameterize.
  destruct to as [s|p|f|]; try apply preserving_ret;
    (apply preserving_bind; [|intros; apply preserving_stringify]).
  - apply preserving_ret.
  - apply preserving_bind; [done|]. intros. apply preserving_ret.
  - apply preserving_bind; [done|]. intros. apply preserving_ret.
Qed.

Lemma initial_world_coherent (loc : Location) (w : World) :
  initial_world loc = Ok w → coherent w.
Proof.
  unfold initial_world. destruct (new_UrlPattern DEFAULT_PATTERN) eqn:E; [|done].
  intros [= <-] k p. simpl. intros [<- <-]%lookup_singleton_Some. done.
Qed.

Lemma initial_world_unshadowed (loc : Location) (w : World) :
  initial_world loc = Ok w → unshadowed w.
Proof.
  unfold initial_world. destruct (new_UrlPattern DEFAULT_PATTERN) eqn:E; [|done].
  intros [= <-] k Hk. simpl. apply lookup_singleton_None.
  intros <-. discriminate Hk.
Qed.

End Noninterference.

(** An invariant of the world that [getParser] keeps and that does not
    depend on the default pattern is kept by every parsing operation. *)
Section Kept.

Context `{UP : UrlPatternLib} `{QS : QueryStringLib} `{UL : UrlLib}.

Variable I : World → Prop.

Hypothesis I_getParser : ∀ a w, I w → I (getParser a w).2.

Lemma kept_bind {A B} (m : M A) (k : A → M B) :
  (∀ w, I w → I (m w).2) → (∀ a w, I w → I (k a w).2) →
  ∀ w, I w → I (bind m k w).2.
Proof.
  intros Hm Hk w H. specialize (Hm w H). unfold bind.
  destruct (m w) as [[a|e] w']; simpl in *; [by apply Hk|done].
Qed.

Lemma kept_locate arg w : I w → I (locate arg w).2.
Proof. by destruct arg. Qed.

Lemma kept_toOwnParams arg pattern w : I w → I (toOwnParams arg pattern w).2.
Proof.
  revert w. unfold toOwnParams. apply kept_bind; [apply kept_locate|].
  intros loc. destruct (negb _); [done|].
  apply kept_bind; [apply I_getParser|].
  intros fetched. by apply kept_bind.
Qed.

Lemma kept_toParams arg pattern w : I w → I (toParams arg pattern w).2.
Proof.
  revert w. unfold toParams. apply kept_bind; [apply kept_locate|].
  intros loc. apply kept_bind; [apply kept_toOwnParams|done].
Qed.

Lemma kept_stringify params pattern w : I w → I (stringify params pattern w).2.
Proof.
  revert w. unfold stringify. apply kept_bind; [apply I_getParser|].
  intros fetched. apply kept_bind; [done|].
  intros parser. by apply kept_bind.
Qed.

Lemma kept_toUrl to pattern w : I w → I (toUrl to pattern w).2.
Proof.
  assert (Hcur : ∀ w, I w → I (getCurrParams pattern w).2).
  { intros w' H. unfold getCurrParams. by apply kept_toParams. }
  revert w. unfold toUrl, parameterize.
  destruct to as [s|p|f|]; [done|..];
    (apply kept_bind; [|intros ? w; apply kept_stringify]).
  - done.
  - by apply kept_bind.
  - by apply kept_bind.
Qed.

End Kept.

Section ReachableFacts.

Context `{UP : UrlPatternLib} `{QS : QueryStringLib} `{UL : UrlLib}.

Lemma history_location_bind {A B} (m : M A) (k : A → M B) :
  (∀ w, history_location (m w).2 = history_location w) →
  (∀ a w, history_location (k a w).2 = history_location w) →
  ∀ w, history_location (bind m k w).2 = history_location w.
Proof.
  intros Hm Hk w. unfold bind. specialize (Hm w).
  destruct (m w) as [[a|e] w']; simpl in *; [by rewrite Hk|done].
Qed.

Lemma history_location_getParser a (w : World) :
  history_location (getParser a w).2 = history_location w.
Proof. apply getParser_history. Qed.

Lemma history_location_locate arg (w : World) :
  history_location (locate arg w).2 = history_location w.
Proof. by destruct arg. Qed.

Lemma history_location_toOwnParams arg pattern (w : World) :
  history_location (toOwnParams arg pattern w).2 = history_location w.
Proof.
  revert w. unfold toOwnParams.
  apply history_location_bind; [apply history_location_locate|].
  intros loc. destruct (negb _); [done|].
  apply history_location_bind; [apply history_location_getParser|].
  intros fetched. by apply history_location_bind.
Qed.

Lemma history_location_toParams arg pattern (w : World) :
  history_location (toParams arg pattern w).2 = history_location w.
Proof.
  revert w. unfold toParams.
  apply history_location_bind; [apply history_location_locate|].
  intros loc. apply history_location_bind; [|done].
  intros w. apply history_location_toOwnParams.
Qed.

Lemma history_location_stringify params pattern (w : World) :
  history_location (stringify params pattern w).2 = history_location w.
Proof.
  revert w. unfold stringify.
  apply history_location_bind; [apply history_location_getParser|].
  intros fetched. apply history_location_bind; [done|].
  intros parser. by apply history_location_bind.
Qed.

Lemma history_location_toUrl to pattern (w : World) :
  history_location (toUrl to pattern w).2 = history_location w.
Proof.
  assert (Hcur : ∀ w, history_location (getCurrParams pattern w).2
                      = history_location w).
  { intros w'. unfold getCurrParams. apply history_location_toParams. }
  revert w. unfold toUrl, parameterize.
  destruct to as [s|p|f|]; [done|..];
    (apply history_location_bind;
     [|intros ? w; apply history_location_stringify]).
  - done.
  - by apply history_location_bind.
  - by apply history_location_bind.
Qed.

(** In a reachable world no cached parser shadows an inherited member. *)
Lemma reachable_unshadowed (loc : Location) (w : World) :
  reachable loc w → unshadowed w.
Proof.
  induction 1 as [w Hi|w a _ Hu|w a _ Hu|w arg pat _ Hu|w arg pat _ Hu
                 |w to pat _ Hu].
  - by eapply initial_world_unshadowed.
  - done.
  - by apply getParser_preserves_unshadowed.
  - by apply (kept_toOwnParams _ getParser_preserves_unshadowed).
  - by apply (kept_toParams _ getParser_preserves_unshadowed).
  - by apply (kept_toUrl _ getParser_preserves_unshadowed).
Qed.

(** Every reachable world has a coherent cache and still browses [loc]. *)
Lemma reachable_agree (loc : Location) (w : World) :
  reachable loc w → coherent w ∧ history_location w = loc.
Proof.
  induction 1 as [w Hi|w a _ [Hc Hl]|w a _ [Hc Hl]|w arg pat _ [Hc Hl]
                 |w arg pat _ [Hc Hl]|w to pat _ [Hc Hl]].
  - split; [by eapply initial_world_coherent|].
    unfold initial_world in Hi. destruct (new_UrlPattern _); [|done].
    by injection Hi as <-.
  - done.
  - split; [by apply preserving_getParser|].
    by rewrite history_location_getParser.
  - split; [by apply preserving_toOwnParams|].
    by rewrite history_location_toOwnParams.
  - split; [by apply preserving_toParams|].
    by rewrite history_location_toParams.
  - split; [by apply preserving_toUrl|].
    by rewrite history_location_toUrl.
Qed.

End ReachableFacts.

(** C10: for two worlds reached from the same browser location by any
    calls of [setPattern] and of the parsing operations, and any explicitly
    supplied pattern string, [toParams] (in both revisions), [toOwnParams]
    and [toUrl] return the same outcome in both; with the reference models,
    [toUrl] without a pattern does change with [setPattern]. *)
Theorem explicit_pattern_noninterference :
  (∀ (UP : UrlPatternLib) (QS : QueryStringLib) (UL : UrlLib)
     (loc : Location) (w1 w2 : World) (pat : string),
     reachable loc w1 → reachable loc w2 →
     (∀ arg, (toParams arg (Some pat) w1).1 = (toParams arg (Some pat) w2).1)
     ∧ (∀ arg, (toOwnParams arg (Some pat) w1).1
               = (toOwnParams arg (Some pat) w2).1)
     ∧ (∀ to, (toUrl to (Some pat) w1).1 = (toUrl to (Some pat) w2).1)
     ∧ (∀ arg, (toParams_v1 arg (Some pat) w1).1
               = (toParams_v1 arg (Some pat) w2).1))
  ∧ (let w := loaded (browse "/" "") in
     (toUrl (UP := UrlPatternModel.lib) (QS := QueryStringModel.lib)
        (UL := UrlModel.lib) (DParams {[ "id" := VNum 7 ]}) None w).1
     = Ok "/?id=7"
     ∧ (toUrl (UP := UrlPatternModel.lib) (QS := QueryStringModel.lib)
          (UL := UrlModel.lib) (DParams {[ "id" := VNum 7 ]}) None
          (setPattern (Some "/users/:id") w).2).1
       = Ok "/users/7").
Proof.
  split.
  - intros UP QS UL loc w1 w2 pat H1 H2.
    pose proof (reachable_unshadowed _ _ H1) as Hu1.
    pose proof (reachable_unshadowed _ _ H2) as Hu2.
    apply reachable_agree in H1 as [Hc1 Hl1].
    apply reachable_agree in H2 as [Hc2 Hl2].
    assert (Ha : agree w1 w2) by (repeat split; [done..|congruence]).
    split; [|split; [|split]].
    + intros arg. by apply insensitive_toParams.
    + intros arg. by apply insensitive_toOwnParams.
    + intros to. by apply insensitive_toUrl.
    + intros arg. by apply insensitive_toParams_v1.
  - split; vm_compute; reflexivity.
Qed.

Lemma explicit_pattern_noninterference_witness :
  let loc := browse "/users/42" "?tab=a" in
  let w1 := loaded loc in
  let w2 := (toParams (UP := UrlPatternModel.lib) (QS := QueryStringModel.lib)
               (UL := UrlModel.lib) None (Some "/a/:b")
               (setPattern (Some "/users/:id") w1).2).2 in
  (toParams (UP := UrlPatternModel.lib) (QS := QueryStringModel.lib)
     (UL := UrlModel.lib) None (Some "/users/:id") w1).1
  = (toParams (UP := UrlPatternModel.lib) (QS := QueryStringModel.lib)
       (UL := UrlModel.lib) None (Some "/users/:id") w2).1.
Proof.
  assert (H0 : initial_world (UP := UrlPatternModel.lib)
                 (browse "/users/42" "?tab=a")
               = Ok (loaded (browse "/users/42" "?tab=a"))).
  { reflexivity. }
  intros loc w1 w2.
  assert (H1 : reachable (UP := UrlPatternModel.lib) (QS := QueryStringModel.lib)
                 (UL := UrlModel.lib) loc w1).
  { apply reach_load. exact H0. }
  assert (H2 : reachable (UP := UrlPatternModel.lib) (QS := QueryStringModel.lib)
                 (UL := UrlModel.lib) loc w2).
  { apply reach_toParams, reach_setPattern, H1. }
  exact (proj1 (proj1 explicit_pattern_noninterference UrlPatternModel.lib
                  QueryStringModel.lib UrlModel.lib loc w1 w2 "/users/:id" H1 H2)
           None).
Defined.

(** ** Navigation from a derived scope *)

(** C4: [goTo] of a derived scope, given a parameter mapping [d] and
    options that carry no pattern of their own, merges the ancestor's
    [rootParams] under [d] (a key of [d] wins, any other key comes from the
    ancestor) and then navigates with the merged mapping against the
    scope's full pattern.  With ancestor [rootParams = {adminId: "3"}],
    [goTo({userId: 9})] builds its URL from both [adminId = "3"] and
    [userId = 9] and pushes [/admin/3/users/9]. *)
Theorem routable_goTo_merges_rootParams :
  (∀ (UP : UrlPatternLib) (QS : QueryStringLib) (UL : UrlLib) (w : World)
     own params parent pattern rootParams rootPattern rest
     (d : obj) (options : option NavOptions),
     (∀ o, options = Some o → opt_pattern o = None) →
     let r := Routable own params parent pattern rootParams rootPattern rest in
     let R := default ∅ (rootParams_of parent) in
     let merged := withRootParams parent d in
     let replace := default false (options ≫= opt_replace) in
     (∀ k, merged !! k = match d !! k with Some v => Some v | None => R !! k end)
     ∧ routable_goTo r (Some (DParams d)) options w
       = navigate (Some (DParams merged))
           (POOptions (mkNavOptions (Some pattern) (options ≫= opt_replace)))
           None w
     ∧ routable_goTo r (Some (DParams d)) options w
       = bind (toUrl (DParams merged) (Some pattern))
           (λ url, history_call
                     (if replace then HistoryReplace url else HistoryPush url)) w)
  ∧ (let loc := browse "/admin/3/users/7" "" in
     let w1 := (derive (UP := UrlPatternModel.lib) (QS := QueryStringModel.lib)
                  (UL := UrlModel.lib) "/admin/:adminId" loc RootRouter
                  (loaded loc)).2 in
     let w2 := (derive (UP := UrlPatternModel.lib) (QS := QueryStringModel.lib)
                  (UL := UrlModel.lib) "/users/:userId" loc admin_scope w1).2 in
     let d : obj := {[ "userId" := VNum 9 ]} in
     (derive (UP := UrlPatternModel.lib) (QS := QueryStringModel.lib)
        (UL := UrlModel.lib) "/admin/:adminId" loc RootRouter (loaded loc)).1
     = Ok admin_scope
     ∧ (derive (UP := UrlPatternModel.lib) (QS := QueryStringModel.lib)
          (UL := UrlModel.lib) "/users/:userId" loc admin_scope w1).1
       = Ok user_scope
     ∧ rootParams_of admin_scope = Some {[ "adminId" := VStr "3" ]}
     ∧ withRootParams admin_scope d
       = {[ "adminId" := VStr "3"; "userId" := VNum 9 ]}
     ∧ history_calls
         (routable_goTo (UP := UrlPatternModel.lib) (QS := QueryStringModel.lib)
            (UL := UrlModel.lib) user_scope (Some (DParams d)) None w2).2
       = [HistoryPush "/admin/3/users/9"]).
Proof.
  split.
  - intros UP QS UL w own params parent pattern rootParams rootPattern rest d
      options Hopt r R merged replace.
    split; [|split].
    + intros k. unfold merged, withRootParams. apply lookup_spread.
    + unfold r, routable_goTo. destruct options as [o|]; [|done].
      simpl. by rewrite (Hopt o eq_refl).
    + unfold r, routable_goTo, navigate, replace.
      destruct options as [o|]; [|done].
      simpl. by rewrite (Hopt o eq_refl).
  - repeat split; vm_compute; reflexivity.
Qed.

Lemma routable_goTo_merges_rootParams_witness :
  routable_goTo (UP := UrlPatternModel.lib) (QS := QueryStringModel.lib)
    (UL := UrlModel.lib) user_scope (Some (DParams {[ "userId" := VNum 9 ]}))
    (Some (mkNavOptions None (Some true))) (loaded (browse "/admin/3/users/7" ""))
  = navigate (UP := UrlPatternModel.lib) (QS := QueryStringModel.lib)
      (UL := UrlModel.lib)
      (Some (DParams (withRootParams admin_scope {[ "userId" := VNum 9 ]})))
      (POOptions (mkNavOptions (Some "/admin/:adminId/users/:userId(*)") (Some true)))
      None (loaded (browse "/admin/3/users/7" "")).
Proof.
  refine (proj1 (proj2 (proj1 routable_goTo_merges_rootParams UrlPatternModel.lib
    QueryStringModel.lib UrlModel.lib (loaded (browse "/admin/3/users/7" ""))
    "/users/:userId" {[ "adminId" := VStr "3"; "userId" := VStr "7" ]} admin_scope
    "/admin/:adminId/users/:userId(*)"
    {[ "adminId" := VStr "3"; "userId" := VStr "7" ]}
    "/admin/:adminId/users/:userId" (VStr "") {[ "userId" := VNum 9 ]}
    (Some (mkNavOptions None (Some true))) _))).
  intros o [= <-]. reflexivity.
Defined.

(** ** Hierarchical composition *)

(** C3, as stated, fails: the scope derived for ancestor pattern [/admin],
    own pattern [/users/:userId] and location [/admin/users/7?adminId=3]
    has the query-derived [adminId] among its [params], and its
    [rootParams] are not empty. *)
Lemma derive_params_not_pathname_only :
  let loc := browse "/admin/users/7" "?adminId=3" in
  let w1 := (derive (UP := UrlPatternModel.lib) (QS := QueryStringModel.lib)
               (UL := UrlModel.lib) "/admin" loc RootRouter (loaded loc)).2 in
  (derive (UP := UrlPatternModel.lib) (QS := QueryStringModel.lib)
     (UL := UrlModel.lib) "/users/:userId" loc plain_admin_scope w1).1
  = Ok plain_user_scope
  ∧ params_of plain_user_scope ≠ Some {[ "userId" := VStr "7" ]}
  ∧ rootParams_of plain_user_scope ≠ Some ∅.
Proof.
  split; [vm_compute; reflexivity|]. split.
  - intros H. apply (f_equal (λ o, o ≫= (λ m : obj, m !! "adminId"))) in H.
    vm_compute in H. discriminate.
  - intros H. apply (f_equal (λ o, o ≫= (λ m : obj, m !! "userId"))) in H.
    vm_compute in H. discriminate.
Qed.

(** C3, amended: for ancestor pattern [/admin], own pattern
    [/users/:userId] and location [/admin/users/7?adminId=3], the ancestor
    scope derives to [params = {adminId: 3}] and [rest = "/users/7"], and
    the descendant scope to [params = {adminId: 3, userId: "7"}] (every
    source of [toParams], the query included, minus the catch-all) and
    [rest = ""]. *)
Theorem derive_hierarchical_example :
  let loc := browse "/admin/users/7" "?adminId=3" in
  let derived own parent w :=
    derive (UP := UrlPatternModel.lib) (QS := QueryStringModel.lib)
      (UL := UrlModel.lib) own loc parent w in
  initial_world (UP := UrlPatternModel.lib) loc = Ok (loaded loc)
  ∧ ∃ admin users,
      (derived "/admin" RootRouter (loaded loc)).1 = Ok admin
      ∧ params_of admin = Some {[ "adminId" := VNum 3 ]}
      ∧ rest_of admin = Some (VStr "/users/7")
      ∧ (derived "/users/:userId" admin
           (derived "/admin" RootRouter (loaded loc)).2).1 = Ok users
      ∧ params_of users = Some {[ "adminId" := VNum 3; "userId" := VStr "7" ]}
      ∧ rest_of users = Some (VStr "").
Proof.
  split; [reflexivity|]. exists plain_admin_scope, plain_user_scope.
  repeat split; vm_compute; reflexivity.
Qed.

(** ** Stringifying with a required segment missing *)

Section StringifyFacts.

Import UrlPatternModel.

Variable params : obj.

Lemma take_param_mismatch key idx : mismatch_only (take_param params key idx).
Proof.
  unfold take_param. destruct (getParam _ _ _); simpl; eauto.
Qed.

Lemma stringify_seq_mismatch (ns : list node) :
  Forall (λ n, ∀ idx, mismatch_only (stringify_node params n idx)) ns →
  ∀ idx, mismatch_only (stringify_seq params ns idx).
Proof.
  induction 1 as [|n ns Hn _ IH]; intros idx; simpl; [done|].
  specialize (Hn idx). destruct (stringify_node params n idx) as [[s1 idx1]|e];
    [|done].
  specialize (IH idx1). destruct (stringify_seq params ns idx1) as [[s2 idx2]|e];
    done.
Qed.

Lemma stringify_optional_unfold (body : list node) idx :
  stringify_node params (Optional body) idx =
  if existsb (contains_provided params idx) body
  then stringify_seq params body idx else Ok ("", idx).
Proof.
  simpl. destruct (existsb _ _); [|done].
  generalize idx. induction body as [|n body IH]; intros i; simpl; [done|].
  destruct (stringify_node params n i) as [[s1 idx1]|e]; [|done].
  by rewrite IH.
Qed.

(** Induction on templates, optional groups giving the property for each
    node of their body. *)
Lemma node_nested_ind (P : node → Prop) :
  P Wildcard → (∀ name, P (Named name)) → (∀ t, P (Static t)) →
  (∀ body, Forall P body → P (Optional body)) →
  ∀ n, P n.
Proof.
  intros HW HN HS HO. fix go 1. intros [|name|t|body].
  - exact HW.
  - apply HN.
  - apply HS.
  - apply HO. induction body as [|x r IH]; constructor; [apply go|apply IH].
Qed.

Lemma stringify_node_mismatch (n : node) :
  ∀ idx, mismatch_only (stringify_node params n idx).
Proof.
  induction n as [| | |body IH] using node_nested_ind; intros idx.
  - apply take_param_mismatch.
  - apply take_param_mismatch.
  - done.
  - rewrite stringify_optional_unfold. destruct (existsb _ _); [|done].
    by apply stringify_seq_mismatch.
Qed.

(** A top-level named segment without a value makes the stringifier throw. *)
Lemma stringify_seq_missing (ns : list node) (n : string) :
  Named n ∈ ns → exists_value (get params n) = false →
  ∀ idx, ∃ key, stringify_seq params ns idx = Throw (PatternMismatchError key).
Proof.
  intros Hin Hv. induction ns as [|x ns IH]; intros idx.
  - by apply elem_of_nil in Hin.
  - simpl. pose proof (stringify_node_mismatch x idx) as Hx.
    destruct (stringify_node params x idx) as [[s1 idx1]|e] eqn:E.
    + apply elem_of_cons in Hin as [<-|Hin].
      * simpl in E. unfold take_param, getParam in E. by rewrite Hv in E.
      * destruct (IH Hin idx1) as [key ->]. eauto.
    + destruct Hx as [key ->]. eauto.
Qed.

Lemma stringify_missing (a : ast) (n : string) :
  Named n ∈ a → exists_value (get params n) = false →
  ∃ key, UrlPatternModel.stringify a params = Throw (PatternMismatchError key).
Proof.
  intros Hin Hv. unfold UrlPatternModel.stringify.
  destruct (stringify_seq_missing a n Hin Hv ∅) as [key ->]. eauto.
Qed.

End StringifyFacts.

Lemma named_in_names (a : UrlPatternModel.ast) (n : string) :
  UrlPatternModel.Named n ∈ a → n ∈ UrlPatternModel.names a.
Proof.
  intros Hin. apply list_elem_of_In, in_flat_map.
  exists (UrlPatternModel.Named n). split; [by apply list_elem_of_In|].
  simpl. by left.
Qed.

(** What the repository's [stringify] hands to the Matcher for a named
    segment that the mapping lacks and does not inherit: an [undefined]
    entry, not the default. *)
Lemma pathnameParams_absent (keys : list string) (p : obj) (n : string) :
  n ∈ keys → p !! n = None → inherited n = false →
  get (pathnameParams keys p) n = VUndefined.
Proof.
  intros Hin Hp Hi. unfold pathnameParams, get. rewrite lookup_spread.
  rewrite (lookup_pick_elem keys p n Hin). unfold get. by rewrite Hp, Hi.
Qed.

(** A template that spells a member name of [Object.prototype] is one
    literal: it has no named segment. *)
Lemma inherited_pattern_static (pat : string) (a : UrlPatternModel.ast)
    (n : string) :
  inherited pat = true → UrlPatternModel.compile pat = Ok a →
  UrlPatternModel.Named n ∉ a.
Proof.
  intros Hi Hc Hin. unfold inherited in Hi.
  apply existsb_exists in Hi as (x & Hx & He).
  apply String.eqb_eq in He as <-. simpl in Hx.
  repeat (destruct Hx as [<-|Hx];
          [vm_compute in Hc; injection Hc as <-;
           apply list_elem_of_singleton in Hin; discriminate Hin|]).
  done.
Qed.

(** C6: with the pattern [/:constructor], whose one named segment is
    required, and the empty parameter mapping, which has no such key,
    [toUrl] (in both revisions) throws nothing and returns a URL: [pick]
    reads [obj[k]], finds the member every plain object inherits from
    [Object.prototype], and the Matcher prints it. *)
Theorem toUrl_inherited_segment_key :
  let w := loaded (browse "/" "") in
  UrlPatternModel.compile "/:constructor"
  = Ok [UrlPatternModel.Static "/"; UrlPatternModel.Named "constructor"]
  ∧ (∅ : obj) !! "constructor" = None
  ∧ pick ["constructor"] ∅ = {[ "constructor" := VMember "constructor" ]}
  ∧ (toUrl (UP := UrlPatternModel.lib) (QS := QueryStringModel.lib)
       (UL := UrlModel.lib) (DParams ∅) (Some "/:constructor") w).1
    = Ok "/function Object() { [native code] }"
  ∧ (toUrl_v1 (UP := UrlPatternModel.lib) (QS := QueryStringModel.lib)
       (UL := UrlModel.lib) (DParams ∅) (Some "/:constructor") w).1
    = Ok "/function Object() { [native code] }".
Proof. repeat split; vm_compute; reflexivity. Qed.

(** ** Building a URL *)

(** C8, as stated, fails: for a pattern that does not start with a slash
    the built URL does not start with one either. *)
Lemma toUrl_without_leading_slash :
  (toUrl (UP := UrlPatternModel.lib) (QS := QueryStringModel.lib)
     (UL := UrlModel.lib) (DParams {[ "id" := VNum 42 ]}) (Some "users/:id")
     (loaded (browse "/" ""))).1 = Ok "users/42"
  ∧ Str.starts_with "/" "users/42" = false.
Proof. split; vm_compute; reflexivity. Qed.

Section BuildFacts.

Context `{UP : UrlPatternLib} `{QS : QueryStringLib} `{UL : UrlLib}.

Lemma toUrl_not_literal (to : Dest) (pattern : option string) (w : World) :
  (∀ s, to ≠ DString s) →
  toUrl to pattern w
  = bind (parameterize to pattern) (λ params, stringify params pattern) w.
Proof. intros H. destruct to; [by destruct (H s)|done..]. Qed.

Lemma stringify_ok (params : obj) (pattern : option string) (w : World)
    (parser : UrlPattern) (P : string) :
  (getParser pattern w).1 = Ok (Parser parser) →
  up_stringify parser (pathnameParams (up_names parser) params) = Ok P →
  (stringify params pattern w).1
  = Ok (qs_stringifyUrl (Str.or_else P "/") (omit (up_names parser) params)).
Proof.
  intros Hg Hs. unfold stringify, bind, lift, ret.
  destruct (getParser pattern w) as [[q|e] w'] eqn:E; simpl in Hg; [|done].
  injection Hg as ->. simpl. by rewrite Hs.
Qed.

Lemma or_else_slash_prefix (P : string) :
  P = "" ∨ Str.starts_with "/" P = true →
  Str.starts_with "/" (Str.or_else P "/") = true.
Proof.
  intros [->|H]; [done|]. unfold Str.or_else. by destruct P.
Qed.

End BuildFacts.

Lemma split_no_separator (c : ascii) (u : string) :
  Str.index_of c u = None → QueryStringModel.split c u = [u].
Proof.
  induction u as [|d r IH]; simpl; [done|].
  destruct (Ascii.eqb d c); [done|].
  destruct (Str.index_of c r); [done|]. intros _. by rewrite IH.
Qed.

Lemma string_app_empty (u : string) : u +:+ "" = u.
Proof.
  induction u as [|c r IH]; [done|].
  change (String c (r +:+ "") = String c r). by f_equal.
Qed.

Lemma starts_with_slash (s : string) :
  Str.starts_with "/" s = true ↔ ∃ r, s = String "/" r.
Proof.
  destruct s as [|c r]; split.
  - discriminate.
  - intros [? [=]].
  - intros H. change (Ascii.eqb "/" c && true = true) in H.
    rewrite andb_true_r in H. apply Ascii.eqb_eq in H as <-. eauto.
  - intros [r' [= -> ->]]. reflexivity.
Qed.

(** The reference codec keeps the first character of the URL it extends. *)
Lemma model_stringifyUrl_prefix (u : string) (q : obj) :
  Str.starts_with "/" u = true →
  Str.starts_with "/" (QueryStringModel.stringifyUrl u q) = true.
Proof.
  intros [r ->]%starts_with_slash. apply starts_with_slash.
  unfold QueryStringModel.stringifyUrl, QueryStringModel.removeHash. simpl.
  destruct (Str.index_of "#" r) as [i|]; simpl;
    match goal with
    | |- context [QueryStringModel.split "?" ?x] =>
        destruct (QueryStringModel.split "?" x)
    end; eexists; reflexivity.
Qed.

(** With nothing to append it returns a URL that has neither query nor
    fragment as it is. *)
Lemma model_stringifyUrl_plain (u : string) :
  Str.index_of "?" u = None → Str.index_of "#" u = None →
  QueryStringModel.stringifyUrl u ∅ = u.
Proof.
  intros Hq Hh.
  unfold QueryStringModel.stringifyUrl, QueryStringModel.removeHash,
    QueryStringModel.getHash, QueryStringModel.extract,
    QueryStringModel.removeHash.
  rewrite Hh, Hq, (split_no_separator _ _ Hq). simpl.
  unfold spread. rewrite (left_id_L ∅ (∪)).
  replace (QueryStringModel.stringify ∅) with ""; [|by vm_compute].
  simpl. by rewrite !string_app_empty.
Qed.

(** C8, amended: for every destination other than a literal string and
    every pattern, once the destination resolves to a parameter mapping and
    the Matcher stringifies the pattern's named-segment subset of it (each
    named key is passed with what [params[k]] reads) to a pathname [P],
    [toUrl] returns the codec's [stringifyUrl] of [P] (of ["/"] when [P] is
    empty) and of the remaining keys.  With a codec that keeps the first
    character of the URL it extends and returns a plain URL unchanged when
    there is nothing to append, the result begins with a slash whenever [P]
    is empty or begins with one, and is the bare pathname when no key
    remains. *)
Theorem toUrl_pathname_and_query :
  ∀ (UP : UrlPatternLib) (QS : QueryStringLib) (UL : UrlLib) (w w1 : World)
    (to : Dest) (pattern : option string) (params : obj)
    (parser : UrlPattern) (P : string),
    (∀ u q, Str.starts_with "/" u = true →
            Str.starts_with "/" (qs_stringifyUrl u q) = true) →
    (∀ u, Str.index_of "?" u = None → Str.index_of "#" u = None →
          qs_stringifyUrl u ∅ = u) →
    (∀ s, to ≠ DString s) →
    parameterize to pattern w = (Ok params, w1) →
    (getParser pattern w1).1 = Ok (Parser parser) →
    up_stringify parser (pathnameParams (up_names parser) params) = Ok P →
    let pathname := Str.or_else P "/" in
    let query := omit (up_names parser) params in
    (toUrl to pattern w).1 = Ok (qs_stringifyUrl pathname query)
    ∧ (∀ k, k ∈ up_names parser →
            pathnameParams (up_names parser) params !! k = Some (get params k))
    ∧ (∀ k, query !! k = if decide (k ∈ up_names parser) then None
                         else params !! k)
    ∧ (P = "" ∨ Str.starts_with "/" P = true →
       Str.starts_with "/" (qs_stringifyUrl pathname query) = true)
    ∧ (query = ∅ → Str.index_of "?" pathname = None →
       Str.index_of "#" pathname = None →
       qs_stringifyUrl pathname query = pathname).
Proof.
  intros UP QS UL w w1 to pattern params parser P Hpre Hplain Hto Hpar Hg Hs
    pathname query.
  split; [|split; [|split; [|split]]].
  - rewrite toUrl_not_literal by done. unfold bind. rewrite Hpar.
    by apply stringify_ok.
  - intros k Hk. unfold pathnameParams. rewrite lookup_spread.
    by rewrite lookup_pick_elem.
  - intros k. apply lookup_omit.
  - intros HP. apply Hpre. by apply or_else_slash_prefix.
  - intros -> H1 H2. by apply Hplain.
Qed.

Lemma toUrl_pathname_and_query_witness :
  (toUrl (UP := UrlPatternModel.lib) (QS := QueryStringModel.lib)
     (UL := UrlModel.lib) (DParams {[ "id" := VNum 42; "tab" := VStr "a" ]})
     (Some "/users/:id") (loaded (browse "/" ""))).1
  = Ok (QueryStringModel.stringifyUrl "/users/42" {[ "tab" := VStr "a" ]})
  ∧ Str.starts_with "/"
      (QueryStringModel.stringifyUrl "/users/42" {[ "tab" := VStr "a" ]}) = true.
Proof.
  destruct (toUrl_pathname_and_query UrlPatternModel.lib QueryStringModel.lib
    UrlModel.lib (loaded (browse "/" "")) (loaded (browse "/" ""))
    (DParams {[ "id" := VNum 42; "tab" := VStr "a" ]}) (Some "/users/:id")
    {[ "id" := VNum 42; "tab" := VStr "a" ]}
    [UrlPatternModel.Static "/users/"; UrlPatternModel.Named "id"] "/users/42")
    as (H1 & _ & _ & H4 & _).
  - apply model_stringifyUrl_prefix.
  - apply model_stringifyUrl_plain.
  - intros s. discriminate.
  - reflexivity.
  - reflexivity.
  - vm_compute. reflexivity.
  - split.
    + rewrite H1. reflexivity.
    + replace ({[ "tab" := VStr "a" ]} : obj) with
        (omit ["id"] ({[ "id" := VNum 42; "tab" := VStr "a" ]} : obj))
        by (vm_compute; reflexivity).
      apply H4. by right.
Defined.

(** ** Round trip *)

(** C2: the URL that [toUrl] builds for the mapping [{id: 42}] and the
    pattern [/users/:id] is the relative URL [/users/42]; [toParams] hands
    a string argument to the URL constructor, which rejects a relative URL,
    so the round trip throws a TypeError instead of returning [id]. *)
Theorem toParams_rejects_built_url :
  let w := loaded (browse "/" "") in
  (toUrl (UP := UrlPatternModel.lib) (QS := QueryStringModel.lib)
     (UL := UrlModel.lib) (DParams {[ "id" := VNum 42 ]}) (Some "/users/:id")
     w).1 = Ok "/users/42"
  ∧ (toParams (UP := UrlPatternModel.lib) (QS := QueryStringModel.lib)
       (UL := UrlModel.lib) (Some (ArgString "/users/42")) (Some "/users/:id")
       (toUrl (UP := UrlPatternModel.lib) (QS := QueryStringModel.lib)
          (UL := UrlModel.lib) (DParams {[ "id" := VNum 42 ]})
          (Some "/users/:id") w).2).1
    = Throw TypeError.
Proof. split; vm_compute; reflexivity. Qed.

(** ** Worked examples of the reference models *)

Example compile_users_id :
  UrlPatternModel.compile "/users/:id"
  = Ok [UrlPatternModel.Static "/users/"; UrlPatternModel.Named "id"].
Proof. vm_compute. reflexivity. Qed.

Example compile_rejects_unbalanced :
  UrlPatternModel.compile "/users/(:id" = Throw PatternSyntaxError
  ∧ UrlPatternModel.compile "" = Throw PatternSyntaxError
  ∧ UrlPatternModel.compile "/a b" = Throw PatternSyntaxError.
Proof. repeat split; vm_compute; reflexivity. Qed.

Example match_with_catch_all :
  UrlPatternModel.compile "/admin/users/:userId(*)"
  = Ok [UrlPatternModel.Static "/admin/users/"; UrlPatternModel.Named "userId";
        UrlPatternModel.Optional [UrlPatternModel.Wildcard]]
  ∧ UrlPatternModel.match_url
      [UrlPatternModel.Static "/admin/users/"; UrlPatternModel.Named "userId";
       UrlPatternModel.Optional [UrlPatternModel.Wildcard]] "/admin/users/7"
    = Some {[ "userId" := VStr "7" ]}
  ∧ UrlPatternModel.match_url
      [UrlPatternModel.Static "/admin/users/"; UrlPatternModel.Named "userId";
       UrlPatternModel.Optional [UrlPatternModel.Wildcard]] "/admin/users/7/x/y"
    = Some {[ "userId" := VStr "7"; "_" := VStr "/x/y" ]}
  ∧ UrlPatternModel.match_url
      [UrlPatternModel.Static "/admin/users/"; UrlPatternModel.Named "userId";
       UrlPatternModel.Optional [UrlPatternModel.Wildcard]] "/users/7"
    = None.
Proof. repeat split; vm_compute; reflexivity. Qed.

Example params_array_pattern :
  toPattern (SpecParams (Some ["id"; "tab"])) = "(/:id)(/:tab)"
  ∧ toPattern (SpecParams (Some [])) = ""
  ∧ (let w := loaded (browse "/" "") in
     (toOwnParams (UP := UrlPatternModel.lib) (UL := UrlModel.lib)
        (Some (ArgLocation (browse "/7" ""))) (Some "(/:id)(/:tab)") w).1
     = Ok {[ "id" := VStr "7" ]}
     ∧ (toOwnParams (UP := UrlPatternModel.lib) (UL := UrlModel.lib)
          (Some (ArgLocation (browse "/7/profile" ""))) (Some "(/:id)(/:tab)") w).1
       = Ok {[ "id" := VStr "7"; "tab" := VStr "profile" ]}
     ∧ (toOwnParams (UP := UrlPatternModel.lib) (UL := UrlModel.lib)
          (Some (ArgLocation (browse "/" ""))) (Some "(/:id)(/:tab)") w).1
       = Ok ∅).
Proof. repeat split; vm_compute; reflexivity. Qed.

Example codec_decode :
  QueryStringModel.parse true (Some "?id=99&tab=profile&ok=TRUE&flag")
  = {[ "id" := VNum 99; "tab" := VStr "profile"; "ok" := VBool true;
       "flag" := VNull ]}.
Proof. vm_compute. reflexivity. Qed.

Example codec_stringifyUrl :
  QueryStringModel.stringifyUrl "/users/42" {[ "tab" := VStr "a b"; "n" := VNum 3 ]}
  = "/users/42?n=3&tab=a%20b"
  ∧ QueryStringModel.stringifyUrl "/users/42" ∅ = "/users/42".
Proof. split; vm_compute; reflexivity. Qed.

Example url_constructor :
  UrlModel.construct "/users/42?x=1" = Throw TypeError
  ∧ UrlModel.construct "http://example.com/users/42?x=1#h=2"
    = Ok (mkLocation (Some "/users/42") (Some "?x=1") (Some "#h=2") None).
Proof. split; vm_compute; reflexivity. Qed.

(** Numbers print as JavaScript prints them: in full up to 21 digits,
    with the shortest digits that read back once past [2^53], and with an
    exponent from [1e21]. *)
Example number_to_string :
  to_string (VNum 42) = "42"
  ∧ to_string (VNum (-7)) = "-7"
  ∧ to_string (VNum 9007199254740993) = "9007199254740992"
  ∧ to_string (VNum 12345678901234567890) = "12345678901234567000"
  ∧ to_string (VNum 999999999999999999999) = "1e+21"
  ∧ to_string (VNum 1180591620717411303424) = "1.1805916207174113e+21"
  ∧ to_string (VNum (- 100000000000000000000000)) = "-1e+23"
  ∧ to_string (VArr [VNum 1; VNull; VStr "a"]) = "1,,a"
  ∧ to_string (VMember "toString") = "function toString() { [native code] }".
Proof. repeat split; vm_compute; reflexivity. Qed.

(** What a plain object reads under a name it does not own. *)
Example inherited_reads :
  get ∅ "constructor" = VMember "constructor"
  ∧ get ∅ "id" = VUndefined
  ∧ get {[ "constructor" := VStr "x" ]} "constructor" = VStr "x"
  ∧ (getParser (UP := UrlPatternModel.lib) (Some "constructor")
       (loaded (browse "/" "")))
    = (Ok (Member "constructor"), loaded (browse "/" ""))
  ∧ (toParams (UP := UrlPatternModel.lib) (QS := QueryStringModel.lib)
       (UL := UrlModel.lib) (Some (ArgLocation (browse "/constructor" "")))
       (Some "constructor") (loaded (browse "/" ""))).1
    = Throw TypeError
  ∧ UrlPatternModel.match_url
      [UrlPatternModel.Static "/"; UrlPatternModel.Named "constructor"] "/x"
    = Some {[ "constructor" := VArr [VMember "constructor"; VStr "x"] ]}.
Proof. repeat split; reflexivity. Qed.

(** With a catch-all in the pattern, [pick] lists ["_"] and its
    [undefined] entry replaces the [""] default of [pathnameParams]. *)
Example catch_all_default_overridden :
  pathnameParams ["_"] ∅ !! "_" = Some VUndefined
  ∧ (toUrl (UP := UrlPatternModel.lib) (QS := QueryStringModel.lib)
       (UL := UrlModel.lib) (DParams ∅) (Some "/files/*")
       (loaded (browse "/" ""))).1
    = Throw (PatternMismatchError "_")
  ∧ (toUrl (UP := UrlPatternModel.lib) (QS := QueryStringModel.lib)
       (UL := UrlModel.lib) (DParams ∅) (Some "/files(*)")
       (loaded (browse "/" ""))).1
    = Ok "/files".
Proof. repeat split; vm_compute; reflexivity. Qed.

(** * Further properties *)

(** ** util: [pick] and [omit] *)

Lemma lookup_pick_not_elem (keys : list string) (o : obj) (k : string) :
  k ∉ keys → pick keys o !! k = None.
Proof.
  unfold pick. assert (H : (∅ : obj) !! k = None) by apply lookup_empty.
  revert H. generalize (∅ : obj).
  induction keys as [|x keys IH]; intros acc Hacc Hk; [done|].
  simpl. apply not_elem_of_cons in Hk as [Hne Hk].
  apply IH; [|done]. by rewrite lookup_insert_ne.
Qed.

(** X1: [pick(keys, obj)] has an own entry for every listed key, holding
    what [obj[k]] reads (the own value, else the member that [obj] inherits
    from [Object.prototype] under that name, else [undefined]) and no other
    entry; [omit(keys, obj)] has exactly the own entries of [obj] whose key
    is not listed.  So [pick(["constructor"], {})] holds the inherited
    constructor, while [omit] never shows an inherited member. *)
Theorem pick_omit_split :
  (∀ (keys : list string) (o : obj) (k : string),
     pick keys o !! k = (if decide (k ∈ keys) then Some (get o k) else None)
     ∧ get o k = match o !! k with
                 | Some v => v
                 | None => if inherited k then VMember k else VUndefined
                 end
     ∧ omit keys o !! k = (if decide (k ∈ keys) then None else o !! k))
  ∧ pick ["constructor"] ∅ = {[ "constructor" := VMember "constructor" ]}
  ∧ pick ["id"] ∅ = {[ "id" := VUndefined ]}
  ∧ omit ["id"] ∅ !! "constructor" = None.
Proof.
  split; [|repeat split; vm_compute; reflexivity].
  intros keys o k. split; [|split; [reflexivity|apply lookup_omit]].
  case_decide; [by apply lookup_pick_elem|by apply lookup_pick_not_elem].
Qed.

(** X2: the mapping [stringify] hands to the Matcher holds, under every
    name of the pattern, what [params[name]] reads (the own value, else the
    member inherited from [Object.prototype], else [undefined]), and it
    holds no key of the parameters that the pattern does not name. *)
Theorem pathnameParams_lookup :
  ∀ (keys : list string) (p : obj) (k : string),
    if decide (k ∈ keys)
    then pathnameParams keys p !! k = Some (get p k)
    else k = "_" ∨ pathnameParams keys p !! k = None.
Proof.
  intros keys p k. unfold pathnameParams. rewrite lookup_spread.
  case_decide as Hk.
  - by rewrite lookup_pick_elem.
  - rewrite lookup_pick_not_elem by done.
    destruct (decide (k = "_")) as [Hu|Hu]; [by left|right].
    by apply lookup_singleton_ne.
Qed.

(** ** parsing: [trimSlashes] *)

Lemma span_slashes (n : nat) : Str.span Str.is_slash (slashes n) = n.
Proof. induction n as [|n IH]; [done|]. cbn. by rewrite IH. Qed.

Lemma drop_slashes (n : nat) : Str.drop n (slashes n) = "".
Proof. induction n as [|n IH]; [done|]. exact IH. Qed.

Lemma is_slash_eq (c : ascii) : Str.is_slash c = true → c = "/"%char.
Proof. unfold Str.is_slash, Str.slash. apply Ascii.eqb_eq. Qed.

Lemma all_slashes_span (s : string) :
  Str.drop (Str.span Str.is_slash s) s = "" → s = slashes (Str.span Str.is_slash s).
Proof.
  induction s as [|c r IH]; [done|].
  cbn [Str.span]. destruct (Str.is_slash c) eqn:E; [|done].
  apply is_slash_eq in E as ->. cbn [Str.drop slashes]. intros H. f_equal. by apply IH.
Qed.

Lemma trailing_alt_Some (s : string) (n : nat) :
  Slashes.trailing_alt s = Some n → s = slashes n.
Proof.
  unfold Slashes.trailing_alt.
  destruct (1 <=? Str.span Str.is_slash s)%nat; [|done]. simpl.
  destruct (Str.drop (Str.span Str.is_slash s) s) eqn:E; [|done].
  simpl. intros [= <-]. by apply all_slashes_span.
Qed.

Lemma trailing_alt_slashes (n : nat) :
  Slashes.trailing_alt (slashes (S n)) = Some (S n).
Proof.
  unfold Slashes.trailing_alt. rewrite span_slashes, drop_slashes. done.
Qed.

(** Past index 0 only the trailing run can be removed. *)
Lemma replace_first_trailing (s : string) :
  ∃ n, s = Slashes.replace_first false s +:+ slashes n
       ∧ ends_with_slash (Slashes.replace_first false s) = false.
Proof.
  induction s as [|c r (m & Hr & He)].
  - by exists O.
  - cbn [Slashes.replace_first].
    destruct (Slashes.trailing_alt (String c r)) as [n|] eqn:E.
    + exists n. apply trailing_alt_Some in E. rewrite E at 1.
      rewrite E, drop_slashes. done.
    + exists m. split.
      * change (String c r = String c (Slashes.replace_first false r +:+ slashes m)).
        by f_equal.
      * cbn [ends_with_slash].
        destruct (Slashes.replace_first false r) as [|d t] eqn:T; [|exact He].
        destruct (Str.is_slash c) eqn:Hc; [|done].
        apply is_slash_eq in Hc as ->.
        change ("" +:+ slashes m) with (slashes m) in Hr. subst r.
        change (String "/" (slashes m)) with (slashes (S m)) in E.
        by rewrite trailing_alt_slashes in E.
Qed.

Lemma leading_alt_None (s : string) :
  Str.starts_with "//" s = false → Slashes.leading_alt s = None.
Proof.
  unfold Slashes.leading_alt. intros H.
  destruct s as [|a [|b r]]; cbn [Str.span].
  - done.
  - by destruct (Str.is_slash a).
  - destruct (Str.is_slash a) eqn:Ea; [|done].
    destruct (Str.is_slash b) eqn:Eb; [|done].
    apply is_slash_eq in Ea as ->. apply is_slash_eq in Eb as ->. done.
Qed.

Lemma replace_first_no_leading (s : string) :
  Slashes.leading_alt s = None →
  Slashes.replace_first true s = Slashes.replace_first false s.
Proof. intros H. destruct s; cbn [Slashes.replace_first]; by rewrite H. Qed.

(** X3: on a string that does not start with two slashes, [trimSlashes]
    removes the trailing run of slashes and nothing else: the input is the
    result followed by slashes only, and the result does not end with a
    slash. *)
Theorem trimSlashes_strips_trailing_run :
  ∀ s : string,
    Str.starts_with "//" s = false →
    ∃ n, s = trimSlashes s +:+ slashes n
         ∧ ends_with_slash (trimSlashes s) = false.
Proof.
  intros s H. unfold trimSlashes.
  rewrite replace_first_no_leading by by apply leading_alt_None.
  apply replace_first_trailing.
Qed.

Lemma trimSlashes_strips_trailing_run_witness :
  ∃ n, "/users/42///" = trimSlashes "/users/42///" +:+ slashes n
       ∧ ends_with_slash (trimSlashes "/users/42///") = false.
Proof.
  apply (trimSlashes_strips_trailing_run "/users/42///"). reflexivity.
Defined.

Lemma all_slashes (n : nat) : Str.all Str.is_slash (slashes n) = true.
Proof. induction n as [|n IH]; [done|]. cbn. exact IH. Qed.

Lemma all_is_slashes (s : string) :
  Str.all Str.is_slash s = true → ∃ n, s = slashes n.
Proof.
  induction s as [|c r IH]; [by exists O|].
  cbn [Str.all]. intros [Hc Hr]%andb_prop.
  apply is_slash_eq in Hc as ->. destruct (IH Hr) as [n ->]. by exists (S n).
Qed.

Lemma trimSlashes_slashes (n : nat) : trimSlashes (slashes n) = "".
Proof.
  destruct n as [|[|k]]; [done..|].
  unfold trimSlashes. cbn [slashes Slashes.replace_first].
  unfold Slashes.leading_alt.
  change (String "/" (String "/" (slashes k))) with (slashes (S (S k))).
  rewrite span_slashes. cbn [Nat.leb]. apply drop_slashes.
Qed.

Lemma trimSlashes_double (s : string) :
  Str.starts_with "//" s = true →
  trimSlashes s = Str.drop (Str.span Str.is_slash s) s.
Proof.
  intros H.
  destruct s as [|a [|b r]]; cbn [Str.starts_with] in H; try discriminate;
    apply andb_prop in H as [Ha Hb]; try discriminate.
  apply andb_prop in Hb as [Hb _].
  apply Ascii.eqb_eq in Ha as <-. apply Ascii.eqb_eq in Hb as <-.
  reflexivity.
Qed.

(** X4: [trimSlashes] returns the empty string exactly on the strings made
    of slashes only (the empty string and the root pathname [/] among
    them); every other pathname keeps at least one character. *)
Theorem trimSlashes_empty_iff :
  ∀ s : string, trimSlashes s = "" ↔ Str.all Str.is_slash s = true.
Proof.
  intros s. split.
  - intros H. destruct (Str.starts_with "//" s) eqn:E.
    + rewrite trimSlashes_double in H by done.
      apply all_slashes_span in H. rewrite H. apply all_slashes.
    + unfold trimSlashes in H.
      rewrite replace_first_no_leading in H by by apply leading_alt_None.
      destruct (replace_first_trailing s) as (n & Hs & _).
      rewrite H in Hs. rewrite Hs. apply all_slashes.
  - intros [n ->]%all_is_slashes. apply trimSlashes_slashes.
Qed.

Lemma trimSlashes_drops_leading_run_witness :
  trimSlashes "///a//b/" = Str.drop (Str.span Str.is_slash "///a//b/") "///a//b/"
  ∧ Str.starts_with "/" (trimSlashes "///a//b/") = false.
Proof.
  apply (trimSlashes_drops_leading_run "///a//b/"). reflexivity.
Defined.

(** ** parsing: argument forms and edge cases *)

Section ParsingFacts.

Context `{UP : UrlPatternLib} `{QS : QueryStringLib} `{UL : UrlLib}.

Lemma locate_world (arg : option LocArg) (w : World) : (locate arg w).2 = w.
Proof. by destruct arg. Qed.

Lemma locate_same_location (arg : option LocArg) (w w' : World) :
  history_location w' = history_location w →
  (locate arg w').1 = (locate arg w).1.
Proof. intros H. destruct arg; simpl; [done|]. by rewrite H. Qed.

(** [toOwnParams], one step at a time. *)
Lemma toOwnParams_cases (arg : option LocArg) (pattern : option string) (w : World) :
  toOwnParams arg pattern w =
  match (locate arg w).1 with
  | Throw e => (Throw e, w)
  | Ok l =>
      if truthy pattern then
        match getParser pattern w with
        | (Ok (Parser parser), w') => (matchPathname parser (pathname l), w')
        | (Ok (Member _), w') => (Throw TypeError, w')
        | (Throw e, w') => (Throw e, w')
        end
      else (Ok ∅, w)
  end.
Proof.
  unfold toOwnParams, bind. pose proof (locate_world arg w) as Hw.
  destruct (locate arg w) as [[l|e] w0]; simpl in *; subst w0; [|done].
  destruct (truthy pattern); simpl; [|done].
  unfold bind, lift. by destruct (getParser pattern w) as [[[parser|m]|e] w'].
Qed.

Lemma toParams_cases (arg : option LocArg) (pattern : option string) (w : World) :
  toParams arg pattern w =
  match (locate arg w).1 with
  | Throw e => (Throw e, w)
  | Ok l =>
      match toOwnParams arg pattern w with
      | (Ok pathParams, w') =>
          (Ok (mergeParams (default ∅ (state l)) (qs_parse (hash l))
                 (qs_parse (search l)) pathParams), w')
      | (Throw e, w') => (Throw e, w')
      end
  end.
Proof.
  unfold toParams, bind. pose proof (locate_world arg w) as Hw.
  destruct (locate arg w) as [[l|e] w0]; simpl in *; subst w0; [|done].
  by destruct (toOwnParams arg pattern w) as [[pp|e] w'].
Qed.

Lemma toOwnParams_repeat arg pattern (w w1 : World) (pp : obj) :
  toOwnParams arg pattern w = (Ok pp, w1) →
  toOwnParams arg pattern w1 = (Ok pp, w1).
Proof.
  rewrite !toOwnParams_cases. intros H.
  assert (Hl : history_location w1 = history_location w).
  { destruct (locate arg w).1; [|by injection H as _ <-].
    destruct (truthy pattern); [|by injection H as _ <-].
    pose proof (getParser_history pattern w) as [Hh _].
    destruct (getParser pattern w) as [[[parser|m]|e] w']; [|done..].
    simpl in Hh. destruct (matchPathname _ _); [|done]. by injection H as _ <-. }
  rewrite (locate_same_location arg w w1 Hl).
  destruct (locate arg w).1 as [l|e]; [|done].
  destruct (truthy pattern); [|by injection H as <- <-].
  destruct (getParser pattern w) as [[[parser|m]|e] w'] eqn:G; [|done..].
  destruct (matchPathname parser (pathname l)) eqn:Em; [|done].
  injection H as <- <-. by rewrite (getParser_repeat _ _ _ _ G), Em.
Qed.

Lemma toParams_repeat arg pattern (w w1 : World) (r : obj) :
  toParams arg pattern w = (Ok r, w1) →
  toParams arg pattern w1 = (Ok r, w1).
Proof.
  rewrite !toParams_cases. intros H.
  destruct (locate arg w).1 as [l|e] eqn:L; [|done].
  destruct (toOwnParams arg pattern w) as [[pp|e] w'] eqn:O; [|done].
  injection H as <- <-.
  pose proof (history_location_toOwnParams arg pattern w) as Hl.
  rewrite O in Hl. simpl in Hl.
  rewrite (locate_same_location arg w w' Hl), L.
  by rewrite (toOwnParams_repeat _ _ _ _ _ O).
Qed.

End ParsingFacts.

(** X6: a nil location argument is the ambient [history.location]; a string
    argument is the Location the URL constructor returns for it, and when
    the constructor throws, [toParams] and [toOwnParams] throw the same error
    before the parser cache is consulted. *)
Theorem toParams_argument_forms :
  ∀ (UP : UrlPatternLib) (QS : QueryStringLib) (UL : UrlLib) (w : World)
    (pattern : option string),
    toParams None pattern w
    = toParams (Some (ArgLocation (history_location w))) pattern w
    ∧ toOwnParams None pattern w
      = toOwnParams (Some (ArgLocation (history_location w))) pattern w
    ∧ ∀ s, match new_URL s with
           | Ok l =>
               toParams (Some (ArgString s)) pattern w
               = toParams (Some (ArgLocation l)) pattern w
               ∧ toOwnParams (Some (ArgString s)) pattern w
                 = toOwnParams (Some (ArgLocation l)) pattern w
           | Throw e =>
               toParams (Some (ArgString s)) pattern w = (Throw e, w)
               ∧ toOwnParams (Some (ArgString s)) pattern w = (Throw e, w)
           end.
Proof.
  intros UP QS UL w pattern.
  assert (Hown : ∀ a l, (locate a w).1 = Ok l →
            toOwnParams a pattern w = toOwnParams (Some (ArgLocation l)) pattern w).
  { intros a l Hl. rewrite !toOwnParams_cases, Hl. done. }
  assert (Hall : ∀ a l, (locate a w).1 = Ok l →
            toParams a pattern w = toParams (Some (ArgLocation l)) pattern w).
  { intros a l Hl. rewrite !toParams_cases, Hl, (Hown a l Hl). done. }
  split; [by apply Hall|]. split; [by apply Hown|].
  intros s. destruct (new_URL s) as [l|e] eqn:E.
  - split; [apply Hall|apply Hown]; simpl; by rewrite E.
  - rewrite toParams_cases, toOwnParams_cases. simpl. by rewrite E.
Qed.



(** X8: when the location has no [pathname] (an argument that is neither
    nil, an object nor a string is read as [{}]) and a non-empty pattern
    compiles, [toOwnParams] and [toParams] throw a TypeError, after the
    parser has been fetched: the world is the one [getParser] leaves. *)
Theorem toOwnParams_without_pathname :
  ∀ (UP : UrlPatternLib) (QS : QueryStringLib) (UL : UrlLib) (w w1 : World)
    (arg : LocArg) (l : Location) (pat : string) (parser : UrlPattern),
    toLocation arg = Ok l → pathname l = None → pat ≠ "" →
    getParser (Some pat) w = (Ok (Parser parser), w1) →
    toOwnParams (Some arg) (Some pat) w = (Throw TypeError, w1)
    ∧ toParams (Some arg) (Some pat) w = (Throw TypeError, w1)
    ∧ parsers w1 !! pat = Some parser.
Proof.
  intros UP QS UL w w1 arg l pat parser Hl Hp Hne Hg.
  assert (Ho : toOwnParams (Some arg) (Some pat) w = (Throw TypeError, w1)).
  { rewrite toOwnParams_cases. simpl. rewrite Hl.
    destruct pat; [done|]. simpl. by rewrite Hg, Hp. }
  split; [done|]. split.
  - rewrite toParams_cases. simpl. by rewrite Hl, Ho.
  - apply (getParser_cached _ _ _ _ Hg).
Qed.

Lemma toOwnParams_without_pathname_witness :
  let w := loaded (browse "/" "") in
  toOwnParams (UP := UrlPatternModel.lib) (UL := UrlModel.lib)
    (Some ArgOther) (Some "/users/:id") w
  = (Throw TypeError,
     (getParser (UP := UrlPatternModel.lib) (Some "/users/:id") w).2).
Proof.
  intros w.
  refine (proj1 (toOwnParams_without_pathname UrlPatternModel.lib
    QueryStringModel.lib UrlModel.lib w _ ArgOther empty_location "/users/:id"
    [UrlPatternModel.Static "/users/"; UrlPatternModel.Named "id"]
    eq_refl eq_refl _ eq_refl)).
  discriminate.
Defined.

(** X9: repeating a successful [toOwnParams] or [toParams] call in the
    world it left returns the same mapping and changes nothing more: the
    parser it needed is cached. *)
Theorem toParams_repeatable :
  ∀ (UP : UrlPatternLib) (QS : QueryStringLib) (UL : UrlLib)
    (arg : option LocArg) (pattern : option string) (w w1 : World) (r : obj),
    (toOwnParams arg pattern w = (Ok r, w1) →
     toOwnParams arg pattern w1 = (Ok r, w1))
    ∧ (toParams arg pattern w = (Ok r, w1) →
       toParams arg pattern w1 = (Ok r, w1)).
Proof.
  intros. split; [apply toOwnParams_repeat|apply toParams_repeat].
Qed.

Lemma toParams_repeatable_witness :
  let w := loaded (browse "/users/42" "?tab=a") in
  let first := toParams (UP := UrlPatternModel.lib) (QS := QueryStringModel.lib)
                 (UL := UrlModel.lib) None (Some "/users/:id") w in
  toParams (UP := UrlPatternModel.lib) (QS := QueryStringModel.lib)
    (UL := UrlModel.lib) None (Some "/users/:id") first.2
  = (Ok {[ "id" := VStr "42"; "tab" := VStr "a" ]}, first.2).
Proof.
  intros w first.
  apply (proj2 (toParams_repeatable UrlPatternModel.lib QueryStringModel.lib
    UrlModel.lib None (Some "/users/:id") w first.2
    {[ "id" := VStr "42"; "tab" := VStr "a" ]})).
  reflexivity.
Defined.

(** ** What the operations leave alone *)

Section FrameFacts.

Context `{UP : UrlPatternLib} `{QS : QueryStringLib} `{UL : UrlLib}.

Lemma cache_only_ret {A} (a : A) : cache_only (ret a).
Proof. by intros w. Qed.

Lemma cache_only_lift {A} (r : result A) : cache_only (lift r).
Proof. by intros w. Qed.

Lemma cache_only_bind {A B} (m : M A) (k : A → M B) :
  cache_only m → (∀ a, cache_only (k a)) → cache_only (bind m k).
Proof.
  intros Hm Hk w. destruct (Hm w) as (H1 & H2 & H3 & H4). unfold bind.
  destruct (m w) as [[a|e] w']; simpl in *; [|done].
  destruct (Hk a w') as (K1 & K2 & K3 & K4).
  repeat split; try congruence. by etrans.
Qed.

Lemma cache_only_getParser a : cache_only (getParser a).
Proof.
  intros w. split; [apply getParser_defaultPattern|].
  split; [apply getParser_history|].
  split; [apply getParser_history|apply getParser_grows].
Qed.

Lemma cache_only_locate arg : cache_only (locate arg).
Proof. destruct arg; by intros w. Qed.

Lemma cache_only_toOwnParams arg pattern : cache_only (toOwnParams arg pattern).
Proof.
  unfold toOwnParams. apply cache_only_bind; [apply cache_only_locate|].
  intros loc. destruct (negb _); [apply cache_only_ret|].
  apply cache_only_bind; [apply cache_only_getParser|].
  intros fetched. apply cache_only_bind; [apply cache_only_lift|].
  intros parser. apply cache_only_lift.
Qed.

Lemma cache_only_toParams arg pattern : cache_only (toParams arg pattern).
Proof.
  unfold toParams. apply cache_only_bind; [apply cache_only_locate|].
  intros loc. apply cache_only_bind; [apply cache_only_toOwnParams|].
  intros. apply cache_only_ret.
Qed.

Lemma cache_only_toParams_v1 arg pattern : cache_only (toParams_v1 arg pattern).
Proof.
  unfold toParams_v1. apply cache_only_bind; [apply cache_only_locate|].
  intros loc. apply cache_only_bind; [apply cache_only_getParser|].
  intros fetched. apply cache_only_bind; [apply cache_only_lift|].
  intros parser. apply cache_only_bind; [apply cache_only_lift|].
  intros. apply cache_only_ret.
Qed.

Lemma cache_only_stringify params pattern : cache_only (stringify params pattern).
Proof.
  unfold stringify. apply cache_only_bind; [apply cache_only_getParser|].
  intros fetched. apply cache_only_bind; [apply cache_only_lift|].
  intros parser. apply cache_only_bind; [apply cache_only_lift|].
  intros. apply cache_only_ret.
Qed.

Lemma cache_only_stringify_v1 params pattern :
  cache_only (stringify_v1 params pattern).
Proof.
  unfold stringify_v1. apply cache_only_bind; [apply cache_only_getParser|].
  intros fetched. apply cache_only_bind; [apply cache_only_lift|].
  intros parser. apply cache_only_bind; [apply cache_only_lift|].
  intros. apply cache_only_ret.
Qed.

Lemma cache_only_toUrl to pattern : cache_only (toUrl to pattern).
Proof.
  assert (Hcur : cache_only (getCurrParams pattern)).
  { intros w. unfold getCurrParams. apply cache_only_toParams. }
  unfold toUrl, parameterize.
  destruct to as [s|p|f|]; try apply cache_only_ret;
    (apply cache_only_bind; [|intros; apply cache_only_stringify]).
  - apply cache_only_ret.
  - apply cache_only_bind; [done|]. intros. apply cache_only_ret.
  - apply cache_only_bind; [done|]. intros. apply cache_only_ret.
Qed.

Lemma cache_only_toUrl_v1 to pattern : cache_only (toUrl_v1 to pattern).
Proof.
  assert (Hcur : cache_only (getCurrParams_v1 pattern)).
  { intros w. unfold getCurrParams_v1. apply cache_only_toParams_v1. }
  unfold toUrl_v1, parameterize_v1.
  destruct to as [s|p|f|]; try apply cache_only_ret;
    (apply cache_only_bind; [|intros; apply cache_only_stringify_v1]).
  - apply cache_only_ret.
  - apply cache_only_bind; [done|]. intros. apply cache_only_ret.
  - apply cache_only_bind; [done|]. intros. apply cache_only_ret.
Qed.

Lemma getParser_default (w : World) :
  coherent w → inherited (defaultPattern w) = false →
  (getParser None w).1
  = match new_UrlPattern (defaultPattern w) with
    | Ok p => Ok (Parser p)
    | Throw e => Throw e
    end.
Proof. apply (getParser_explicit (defaultPattern w) w). Qed.

(** A pattern the constructor rejects is no member name of
    [Object.prototype]. *)
Lemma rejected_not_inherited (s : string) :
  compiles s = false → inherited s = false.
Proof.
  intros Hc. destruct (inherited s) eqn:Hi; [|done].
  apply member_compiles in Hi. congruence.
Qed.

End FrameFacts.

(** X10: [toOwnParams], [toParams] and [toUrl] (and the earlier revisions
    of the last two), with any arguments and whether they return or throw,
    never change the default pattern, never call or change the history, and
    never remove or replace a cached parser. *)
Theorem parsing_touches_cache_only :
  ∀ (UP : UrlPatternLib) (QS : QueryStringLib) (UL : UrlLib)
    (arg : option LocArg) (to : Dest) (pattern : option string),
    cache_only (toOwnParams arg pattern)
    ∧ cache_only (toParams arg pattern)
    ∧ cache_only (toUrl to pattern)
    ∧ cache_only (toParams_v1 arg pattern)
    ∧ cache_only (toUrl_v1 to pattern).
Proof.
  intros. split; [apply cache_only_toOwnParams|].
  split; [apply cache_only_toParams|].
  split; [apply cache_only_toUrl|].
  split; [apply cache_only_toParams_v1|apply cache_only_toUrl_v1].
Qed.

(** ** navigation *)

(** X11: [navigate] makes exactly one history call, with the URL [toUrl]
    returns, when [toUrl] returns, and none when [toUrl] throws, the error
    reaching the caller.  The call is [replace] or [push] according to the
    [replace] key of an options object when the second argument is one (the
    third argument is then ignored), and to the third argument otherwise;
    an omitted destination is the empty URL. *)
Theorem navigate_history_call :
  ∀ (UP : UrlPatternLib) (QS : QueryStringLib) (UL : UrlLib) (w : World)
    (to : option Dest) (patternOrOptions : PatternOrOptions)
    (replace : option bool),
    let pattern := match patternOrOptions with
                   | POOptions o => opt_pattern o
                   | POPattern s => Some s
                   | POUndefined => None
                   end in
    let replaces := match patternOrOptions with
                    | POOptions o => default false (opt_replace o)
                    | _ => default false replace
                    end in
    let done := navigate to patternOrOptions replace w in
    match (toUrl (default (DString "") to) pattern w).1 with
    | Ok url =>
        done.1 = Ok tt
        ∧ history_calls done.2
          = (if replaces then HistoryReplace url else HistoryPush url)
              :: history_calls w
    | Throw e => done.1 = Throw e ∧ history_calls done.2 = history_calls w
    end.
Proof.
  intros UP QS UL w to po r pattern replaces finished.
  pose proof (cache_only_toUrl (default (DString "") to) pattern w)
    as (_ & _ & Hc & _).
  assert (E : finished
              = bind (toUrl (default (DString "") to) pattern)
                  (λ url, history_call
                            (if replaces then HistoryReplace url
                             else HistoryPush url)) w).
  { unfold finished, navigate, pattern, replaces. by destruct po. }
  rewrite E. unfold bind.
  destruct (toUrl (default (DString "") to) pattern w) as [[url|e] w']; simpl in *.
  - by rewrite Hc.
  - done.
Qed.

(** X12: the anchor click handler never throws and never touches the
    default pattern or the parser cache.  It marks the event as prevented
    exactly when its guard holds, and makes one history call, with the
    [href] attribute unchanged ([replace] when the element has a [replace]
    attribute other than ["false"], [push] otherwise), exactly when the
    guard holds and the element has an [href]. *)
Theorem goTo_click_effects :
  ∀ (UP : UrlPatternLib) (QS : QueryStringLib) (UL : UrlLib) (w : World)
    (ev : MouseEvent) (el : Element),
    currentTarget ev = Some el →
    let done := goTo (Some ev) w in
    done.1 = Ok (Some (if intercepts ev el then preventDefault ev else ev))
    ∧ defaultPattern done.2 = defaultPattern w
    ∧ parsers done.2 = parsers w
    ∧ constructed done.2 = constructed w
    ∧ history_calls done.2
      = match attr_href el with
        | Some h =>
            if intercepts ev el
            then (if replace_of el then HistoryReplace h else HistoryPush h)
                   :: history_calls w
            else history_calls w
        | None => history_calls w
        end.
Proof.
  intros UP QS UL w ev el Ht finished. unfold finished.
  destruct (intercepts ev el) eqn:G.
  - destruct (attr_href el) as [h|] eqn:Eh.
    + by rewrite (goTo_navigates w ev el h Ht G Eh).
    + unfold goTo. rewrite Ht. fold (intercepts ev el). rewrite G, Eh. done.
  - rewrite (goTo_untouched w ev el Ht G). by destruct (attr_href el).
Qed.

Lemma goTo_click_effects_witness :
  let ev := mkMouseEvent 0 false
              (Some (mkElement (Some "/admin") (Some "") (Some "_self")))
              false false false false in
  history_calls
    (goTo (UP := UrlPatternModel.lib) (QS := QueryStringModel.lib)
       (UL := UrlModel.lib) (Some ev) (loaded (browse "/" ""))).2
  = [HistoryReplace "/admin"].
Proof.
  intros ev.
  exact (proj2 (proj2 (proj2 (proj2 (goTo_click_effects UrlPatternModel.lib
    QueryStringModel.lib UrlModel.lib (loaded (browse "/" "")) ev
    (mkElement (Some "/admin") (Some "") (Some "_self")) eq_refl))))).
Defined.

(** ** router: patterns that do not compile *)

Lemma replicate_snoc_app {A} (n : nat) (x : A) (l : list A) :
  (replicate n x ++ x :: l)%list = (replicate (S n) x ++ l)%list.
Proof. induction n as [|n IH]; [done|]. simpl. by rewrite IH. Qed.

(** X13: a pattern the constructor rejects is never cached: [n] requests
    for it leave the cache as it was and run the constructor [n] times. *)
Theorem getParser_failure_not_cached :
  ∀ (UP : UrlPatternLib) (w : World) (s : string) (n : nat),
    parsers w !! s = None → compiles s = false →
    parsers (getParser_calls (replicate n (Some s)) w) = parsers w
    ∧ constructed (getParser_calls (replicate n (Some s)) w)
      = (replicate n s ++ constructed w)%list.
Proof.
  intros UP w s n Hs Hc. revert w Hs.
  induction n as [|n IH]; intros w Hs; [done|].
  change (getParser_calls (replicate (S n) (Some s)) w)
    with (getParser_calls (replicate n (Some s)) (getParser (Some s) w).2).
  pose proof (rejected_not_inherited s Hc) as Hi.
  unfold compiles in Hc.
  assert (Hg : (getParser (Some s) w).2
               = mkWorld (defaultPattern w) (parsers w) (s :: constructed w)
                   (history_location w) (history_calls w)).
  { unfold getParser. simpl. rewrite Hs, Hi. by destruct (new_UrlPattern s). }
  rewrite Hg.
  destruct (IH (mkWorld (defaultPattern w) (parsers w) (s :: constructed w)
                  (history_location w) (history_calls w)) Hs) as [H1 H2].
  rewrite H1, H2. simpl.
  split; [done|]. apply replicate_snoc_app.
Qed.

Lemma getParser_failure_not_cached_witness :
  constructed
    (getParser_calls (UP := UrlPatternModel.lib) (replicate 3 (Some "/users/(:id"))
       (loaded (browse "/" "")))
  = ["/users/(:id"; "/users/(:id"; "/users/(:id"; "(*)"].
Proof.
  exact (proj2 (getParser_failure_not_cached UrlPatternModel.lib
    (loaded (browse "/" "")) "/users/(:id" 3 eq_refl eq_refl)).
Defined.

(** X14: [setPattern] does not validate its argument: with a pattern the
    constructor rejects it returns normally, and the error surfaces later,
    from every [toUrl] of a parameter mapping and every earlier-revision
    [toParams] that omit the pattern; [toParams] of the current revision
    without a pattern still returns. *)
Theorem setPattern_defers_errors :
  ∀ (UP : UrlPatternLib) (QS : QueryStringLib) (UL : UrlLib) (w : World)
    (p : string) (e : error),
    coherent w → new_UrlPattern p = Throw e →
    let w' := (setPattern (Some p) w).2 in
    (setPattern (Some p) w).1 = Ok tt
    ∧ (∀ d, (toUrl (DParams d) None w').1 = Throw e)
    ∧ (∀ loc, (toParams_v1 (Some (ArgLocation loc)) None w').1 = Throw e)
    ∧ (∀ loc, ∃ r, (toParams (Some (ArgLocation loc)) None w').1 = Ok r).
Proof.
  intros UP QS UL w p e Hc Hp w'.
  assert (Hi : inherited p = false).
  { apply rejected_not_inherited. unfold compiles. by rewrite Hp. }
  assert (Hg : (getParser None w').1 = Throw e).
  { rewrite getParser_default by done. simpl. by rewrite Hp. }
  split; [done|]. split; [|split].
  - intros d. unfold toUrl, parameterize, stringify, bind, ret.
    destruct (getParser None w') as [[q|e'] w'']; simpl in *; congruence.
  - intros loc. rewrite toParams_v1_location.
    destruct (getParser None w') as [[q|e'] w'']; simpl in *; congruence.
  - intros loc. rewrite toParams_cases, toOwnParams_cases. simpl. eauto.
Qed.

Lemma loaded_coherent (loc : Location) :
  coherent (UP := UrlPatternModel.lib) (loaded loc).
Proof.
  intros k q H. unfold loaded in H. simpl in H.
  apply lookup_singleton_Some in H as [<- <-]. reflexivity.
Qed.

Lemma setPattern_defers_errors_witness :
  let w' := (setPattern (UP := UrlPatternModel.lib) (Some "/users/(:id")
               (loaded (browse "/" ""))).2 in
  (toUrl (UP := UrlPatternModel.lib) (QS := QueryStringModel.lib)
     (UL := UrlModel.lib) (DParams {[ "id" := VNum 1 ]}) None w').1
  = Throw PatternSyntaxError.
Proof.
  intros w'.
  refine (proj1 (proj2 (setPattern_defers_errors UrlPatternModel.lib
    QueryStringModel.lib UrlModel.lib (loaded (browse "/" "")) "/users/(:id"
    PatternSyntaxError (loaded_coherent _) eq_refl)) {[ "id" := VNum 1 ]}).
Defined.

(** ** routable: derived scopes *)

Section ScopeFacts.

Context `{UP : UrlPatternLib} `{QS : QueryStringLib} `{UL : UrlLib}.

Lemma derive_from_own own loc parent (w w1 : World) (pp : obj) :
  toOwnParams (Some (ArgLocation loc))
    (Some ((rootPattern_of parent +:+ own) +:+ "(*)")) w = (Ok pp, w1) →
  derive own loc parent w = (Ok (scope_of own loc parent pp), w1).
Proof.
  intros O. unfold derive, bind. rewrite toParams_cases. simpl.
  rewrite O. by rewrite (toOwnParams_repeat _ _ _ _ _ O).
Qed.

Lemma derive_inv own loc parent (w w1 : World) (r : RouterState) :
  derive own loc parent w = (Ok r, w1) →
  ∃ pp, toOwnParams (Some (ArgLocation loc))
          (Some ((rootPattern_of parent +:+ own) +:+ "(*)")) w = (Ok pp, w1)
        ∧ r = scope_of own loc parent pp.
Proof.
  destruct (toOwnParams (Some (ArgLocation loc))
              (Some ((rootPattern_of parent +:+ own) +:+ "(*)")) w)
    as [[pp|e] w'] eqn:O.
  - rewrite (derive_from_own _ _ _ _ _ _ O). intros [= <- <-]. by exists pp.
  - unfold derive, bind. rewrite toParams_cases. simpl. by rewrite O.
Qed.

Lemma insensitive_derive own loc parent : insensitive (derive own loc parent).
Proof.
  unfold derive. cbv zeta.
  apply insensitive_bind; [apply insensitive_toParams|].
  intros all. apply insensitive_bind; [apply insensitive_toOwnParams|].
  intros pp. apply insensitive_ret.
Qed.

End ScopeFacts.

(** X15: whenever [derive] returns, the scope it returns has the full
    pattern [rootPattern + "(*)"] with [rootPattern] the parent's root
    pattern followed by the own pattern; neither [params] nor [rootParams]
    holds the catch-all key; every entry of [rootParams] is an entry of
    [params]; every other key of [params] comes from search, hash or state
    by precedence; and [rest] is never [undefined]. *)
Theorem derive_scope_invariants :
  ∀ (UP : UrlPatternLib) (QS : QueryStringLib) (UL : UrlLib) (w w1 : World)
    (own : string) (loc : Location) (parent r : RouterState),
    derive own loc parent w = (Ok r, w1) →
    ∃ params rootParams rest,
      r = Routable own params parent
            ((rootPattern_of parent +:+ own) +:+ "(*)") rootParams
            (rootPattern_of parent +:+ own) rest
      ∧ params !! "_" = None
      ∧ rootParams !! "_" = None
      ∧ rootParams ⊆ params
      ∧ (∀ k, k ≠ "_" →
              params !! k = precedence rootParams (qs_parse (search loc))
                              (qs_parse (hash loc)) (default ∅ (state loc)) k)
      ∧ rest ≠ VUndefined.
Proof.
  intros UP QS UL w w1 own loc parent r H.
  apply derive_inv in H as (pp & _ & ->). unfold scope_of.
  eexists _, _, _. split; [reflexivity|].
  split; [apply lookup_delete_eq|]. split; [apply lookup_delete_eq|].
  assert (Hk : ∀ k, k ≠ "_" →
            delete "_" (mergeParams (default ∅ (state loc)) (qs_parse (hash loc))
                          (qs_parse (search loc)) pp) !! k
            = precedence (delete "_" pp) (qs_parse (search loc))
                (qs_parse (hash loc)) (default ∅ (state loc)) k).
  { intros k Hne. rewrite lookup_delete_ne by done.
    rewrite lookup_mergeParams. unfold precedence.
    by rewrite lookup_delete_ne. }
  split; [|split; [done|]].
  - apply map_subseteq_spec. intros k v Hv.
    pose proof Hv as [Hne _]%lookup_delete_Some.
    rewrite Hk by done. unfold precedence. by rewrite Hv.
  - by destruct (get _ "_").
Qed.

Lemma derive_scope_invariants_witness :
  let loc := browse "/admin/users/7" "?adminId=3" in
  let w := loaded loc in
  ∃ params rootParams rest,
    plain_admin_scope
    = Routable "/admin" params RootRouter (("" +:+ "/admin") +:+ "(*)")
        rootParams ("" +:+ "/admin") rest
    ∧ params !! "_" = None
    ∧ rootParams !! "_" = None
    ∧ rootParams ⊆ params
    ∧ (∀ k, k ≠ "_" →
            params !! k
            = precedence rootParams
                (qs_parse (QueryStringLib := QueryStringModel.lib) (search loc))
                (qs_parse (QueryStringLib := QueryStringModel.lib) (hash loc))
                (default ∅ (state loc)) k)
    ∧ rest ≠ VUndefined.
Proof.
  intros loc w.
  apply (derive_scope_invariants UrlPatternModel.lib QueryStringModel.lib
           UrlModel.lib w
           (derive (UP := UrlPatternModel.lib) (QS := QueryStringModel.lib)
              (UL := UrlModel.lib) "/admin" loc RootRouter w).2
           "/admin" loc RootRouter plain_admin_scope).
  reflexivity.
Defined.

(** X16: re-deriving a scope in the world the derivation left returns the
    same scope and changes nothing: after the first derivation a scope is a
    function of the location and the parent alone. *)
Theorem derive_is_repeatable :
  ∀ (UP : UrlPatternLib) (QS : QueryStringLib) (UL : UrlLib) (w w1 : World)
    (own : string) (loc : Location) (parent r : RouterState),
    derive own loc parent w = (Ok r, w1) →
    derive own loc parent w1 = (Ok r, w1).
Proof.
  intros UP QS UL w w1 own loc parent r H.
  apply derive_inv in H as (pp & O & ->).
  apply derive_from_own. by apply toOwnParams_repeat in O.
Qed.

Lemma derive_is_repeatable_witness :
  let loc := browse "/admin/users/7" "?adminId=3" in
  let w1 := (derive (UP := UrlPatternModel.lib) (QS := QueryStringModel.lib)
               (UL := UrlModel.lib) "/admin" loc RootRouter (loaded loc)).2 in
  derive (UP := UrlPatternModel.lib) (QS := QueryStringModel.lib)
    (UL := UrlModel.lib) "/admin" loc RootRouter w1
  = (Ok plain_admin_scope, w1).
Proof.
  intros loc w1.
  apply (derive_is_repeatable UrlPatternModel.lib QueryStringModel.lib
           UrlModel.lib (loaded loc) w1 "/admin" loc RootRouter plain_admin_scope).
  reflexivity.
Defined.

(** X17: in any two worlds reached from the same browser location, whatever
    [setPattern] calls and cache contents separate them, [derive] returns the
    same outcome for the same own pattern, location and parent. *)
Theorem derive_independent_of_default :
  ∀ (UP : UrlPatternLib) (QS : QueryStringLib) (UL : UrlLib)
    (loc0 : Location) (w1 w2 : World)
    (own : string) (loc : Location) (parent : RouterState),
    reachable loc0 w1 → reachable loc0 w2 →
    (derive own loc parent w1).1 = (derive own loc parent w2).1.
Proof.
  intros UP QS UL loc0 w1 w2 own loc parent H1 H2.
  pose proof (reachable_unshadowed _ _ H1) as Hu1.
  pose proof (reachable_unshadowed _ _ H2) as Hu2.
  apply reachable_agree in H1 as [Hc1 Hl1].
  apply reachable_agree in H2 as [Hc2 Hl2].
  apply insensitive_derive. repeat split; [done..|congruence].
Qed.

Lemma derive_independent_of_default_witness :
  let loc := browse "/admin/users/7" "?adminId=3" in
  let w1 := loaded loc in
  let w2 := (setPattern (UP := UrlPatternModel.lib) (Some "/users/:id") w1).2 in
  (derive (UP := UrlPatternModel.lib) (QS := QueryStringModel.lib)
     (UL := UrlModel.lib) "/admin" loc RootRouter w1).1
  = (derive (UP := UrlPatternModel.lib) (QS := QueryStringModel.lib)
       (UL := UrlModel.lib) "/admin" loc RootRouter w2).1.
Proof.
  intros loc w1 w2.
  assert (H1 : reachable (UP := UrlPatternModel.lib) (QS := QueryStringModel.lib)
                 (UL := UrlModel.lib) loc w1).
  { apply reach_load. reflexivity. }
  exact (derive_independent_of_default UrlPatternModel.lib QueryStringModel.lib
           UrlModel.lib loc w1 w2 "/admin" loc RootRouter H1
           (reach_setPattern _ _ _ H1)).
Defined.

(** X18: for a parameter mapping and options without a pattern of their
    own, [goTo] of a derived scope navigates to exactly the URL [href] of
    that scope returns for the mapping, with one [replace] or [push] call
    according to the options; and when [href] throws, [goTo] throws the same
    error and makes no history call. *)
Theorem routable_goTo_agrees_with_href :
  ∀ (UP : UrlPatternLib) (QS : QueryStringLib) (UL : UrlLib) (w : World)
    own params parent pattern rootParams rootPattern rest
    (d : obj) (options : option NavOptions),
    (∀ o, options = Some o → opt_pattern o = None) →
    let r := Routable own params parent pattern rootParams rootPattern rest in
    let went := routable_goTo r (Some (DParams d)) options w in
    match (routable_href r (DParams d) w).1 with
    | Ok (Some u) =>
        went.1 = Ok tt
        ∧ history_calls went.2
          = (if default false (options ≫= opt_replace)
             then HistoryReplace u else HistoryPush u) :: history_calls w
    | Ok None => False
    | Throw e => went.1 = Throw e ∧ history_calls went.2 = history_calls w
    end.
Proof.
  intros UP QS UL w own params parent pattern rootParams rootPattern rest d
    options Hopt r went.
  pose proof (cache_only_toUrl (DParams (withRootParams parent d)) (Some pattern) w)
    as (_ & _ & Hc & _).
  assert (E : went
              = bind (toUrl (DParams (withRootParams parent d)) (Some pattern))
                  (λ url, history_call
                            (if default false (options ≫= opt_replace)
                             then HistoryReplace url else HistoryPush url)) w).
  { unfold went, r, routable_goTo, navigate.
    destruct options as [o|]; [|done]. simpl. by rewrite (Hopt o eq_refl). }
  rewrite E. unfold r, routable_href, bind.
  destruct (toUrl (DParams (withRootParams parent d)) (Some pattern) w)
    as [[u|e] w']; simpl in *.
  - by rewrite Hc.
  - done.
Qed.

Lemma routable_goTo_agrees_with_href_witness :
  let w := loaded (browse "/admin/3/users/7" "") in
  (routable_href (UP := UrlPatternModel.lib) (QS := QueryStringModel.lib)
     (UL := UrlModel.lib) user_scope (DParams {[ "userId" := VNum 9 ]}) w).1
  = Ok (Some "/admin/3/users/9")
  ∧ history_calls
      (routable_goTo (UP := UrlPatternModel.lib) (QS := QueryStringModel.lib)
         (UL := UrlModel.lib) user_scope (Some (DParams {[ "userId" := VNum 9 ]}))
         (Some (mkNavOptions None (Some true))) w).2
    = [HistoryReplace "/admin/3/users/9"].
Proof.
  intros w. split; [vm_compute; reflexivity|].
  pose proof (routable_goTo_agrees_with_href UrlPatternModel.lib
    QueryStringModel.lib UrlModel.lib w "/users/:userId"
    {[ "adminId" := VStr "3"; "userId" := VStr "7" ]} admin_scope
    "/admin/:adminId/users/:userId(*)"
    {[ "adminId" := VStr "3"; "userId" := VStr "7" ]}
    "/admin/:adminId/users/:userId" (VStr "") {[ "userId" := VNum 9 ]}
    (Some (mkNavOptions None (Some true)))) as H.
  cbv zeta in H.
  replace (routable_href (UP := UrlPatternModel.lib) (QS := QueryStringModel.lib)
             (UL := UrlModel.lib)
             (Routable "/users/:userId"
                {[ "adminId" := VStr "3"; "userId" := VStr "7" ]} admin_scope
                "/admin/:adminId/users/:userId(*)"
                {[ "adminId" := VStr "3"; "userId" := VStr "7" ]}
                "/admin/:adminId/users/:userId" (VStr ""))
             (DParams {[ "userId" := VNum 9 ]}) w).1
    with (Ok (Some "/admin/3/users/9") : result (option string)) in H
    by (vm_compute; reflexivity).
  apply H. intros o [= <-]. reflexivity.
Defined.

(** ** routable: patterns declared by parameter names *)

Lemma string_app_assoc (a b c : string) : (a +:+ b) +:+ c = a +:+ (b +:+ c).
Proof.
  induction a as [|x a IH]; [done|].
  change (String x ((a +:+ b) +:+ c) = String x (a +:+ (b +:+ c))). by f_equal.
Qed.

Lemma string_length_app (a b : string) :
  String.length (a +:+ b) = (String.length a + String.length b)%nat.
Proof.
  induction a as [|x a IH]; [done|].
  change (S (String.length (a +:+ b)) = S (String.length a + String.length b)).
  by f_equal.
Qed.

Lemma all_app (p : ascii → bool) (a b : string) :
  Str.all p (a +:+ b) = Str.all p a && Str.all p b.
Proof.
  induction a as [|x a IH]; [done|].
  change (p x && Str.all p (a +:+ b) = p x && Str.all p a && Str.all p b).
  rewrite IH. apply andb_assoc.
Qed.

Lemma concat_groups (n : string) (r : list string) :
  String.concat "" (map (λ param, "(/:" +:+ param +:+ ")") (n :: r))
  = groups_text (n :: r).
Proof.
  revert n. induction r as [|m r IH]; intros n; [reflexivity|].
  change (String "(" (String "/" (String ":"
            ((n +:+ ")") +:+
             String.concat "" (map (λ param, "(/:" +:+ param +:+ ")") (m :: r)))))
          = groups_text (n :: m :: r)).
  rewrite IH, string_app_assoc. reflexivity.
Qed.

Lemma toPattern_text (names : list string) :
  toPattern (SpecParams (Some names)) = groups_text names.
Proof.
  destruct names as [|n r]; [done|].
  change (toPattern (SpecParams (Some (n :: r))))
    with (String.concat "" (map (λ param, "(/:" +:+ param +:+ ")") (n :: r))).
  apply concat_groups.
Qed.

Lemma span_name (n rest : string) :
  Str.all UrlPatternModel.name_char n = true →
  Str.span UrlPatternModel.name_char (n +:+ String ")" rest) = String.length n.
Proof.
  induction n as [|x n IH]; [done|].
  cbn [Str.all]. intros [Hx Hn]%andb_prop.
  change (Str.span UrlPatternModel.name_char (String x (n +:+ String ")" rest))
          = S (String.length n)).
  cbn [Str.span]. rewrite Hx. f_equal. by apply IH.
Qed.

Lemma take_app (n rest : string) : Str.take (String.length n) (n +:+ rest) = n.
Proof.
  induction n as [|x n IH]; [by destruct rest|].
  change (String x (Str.take (String.length n) (n +:+ rest)) = String x n).
  by f_equal.
Qed.

Lemma drop_app (n rest : string) : Str.drop (String.length n) (n +:+ rest) = rest.
Proof. induction n as [|x n IH]; [done|]. exact IH. Qed.

Lemma tokens_at_close (f : nat) (rest : string) :
  UrlPatternModel.tokens f (String ")" rest) = ([], String ")" rest).
Proof. by destruct f. Qed.

Lemma token_named pattern (n rest : string) :
  valid_name n →
  UrlPatternModel.token pattern (String ":" (n +:+ String ")" rest))
  = Some (UrlPatternModel.Named n, String ")" rest).
Proof.
  intros [Hne Hall]. unfold UrlPatternModel.token.
  cbn [Ascii.eqb Bool.eqb]. rewrite span_name by done.
  rewrite take_app, drop_app.
  destruct n as [|x n]; [done|]. reflexivity.
Qed.

Lemma tokens_S (f : nat) (s : string) :
  UrlPatternModel.tokens (S f) s
  = match UrlPatternModel.token
            (λ r, match UrlPatternModel.tokens f r with
                  | ([], _) => None
                  | (ns, rest) => Some (ns, rest)
                  end) s with
    | Some (n, rest) =>
        let '(ns, rest') := UrlPatternModel.tokens f rest in (n :: ns, rest')
    | None => ([], s)
    end.
Proof. reflexivity. Qed.

Lemma token_open pattern (r r' : string) (body : UrlPatternModel.ast) :
  pattern r = Some (body, String ")" r') →
  UrlPatternModel.token pattern (String "(" r)
  = Some (UrlPatternModel.Optional body, r').
Proof. intros H. unfold UrlPatternModel.token. cbn [Ascii.eqb Bool.eqb]. by rewrite H. Qed.

(** One group is consumed per unit of fuel, given two units to spare. *)
Lemma tokens_group (f : nat) (n rest : string) :
  valid_name n →
  UrlPatternModel.tokens (S (S (S f)))
    (String "(" (String "/" (String ":" (n +:+ String ")" rest))))
  = (param_group n :: (UrlPatternModel.tokens (S (S f)) rest).1,
     (UrlPatternModel.tokens (S (S f)) rest).2).
Proof.
  intros Hn.
  assert (Hin : UrlPatternModel.tokens (S (S f))
                  (String "/" (String ":" (n +:+ String ")" rest)))
                = ([UrlPatternModel.Static "/"; UrlPatternModel.Named n],
                   String ")" rest)).
  { rewrite tokens_S.
    change (UrlPatternModel.token _ (String "/" (String ":" (n +:+ String ")" rest))))
      with (Some (UrlPatternModel.Static "/", String ":" (n +:+ String ")" rest))).
    cbv iota beta. rewrite tokens_S, token_named by done.
    cbv iota beta. by rewrite tokens_at_close. }
  rewrite tokens_S. erewrite token_open; [|by rewrite Hin].
  cbv iota beta. by destruct (UrlPatternModel.tokens (S (S f)) rest).
Qed.

Lemma tokens_groups (names : list string) (j : nat) :
  Forall valid_name names →
  UrlPatternModel.tokens (S (S (List.length names + j))) (groups_text names)
  = (param_group <$> names, "").
Proof.
  induction 1 as [|n r Hn _ IH]; [reflexivity|].
  change (S (S (List.length (n :: r) + j)))
    with (S (S (S (List.length r + j)))).
  cbn [groups_text]. rewrite tokens_group by done. by rewrite IH.
Qed.

Lemma groups_text_length (names : list string) :
  (List.length names * 4 ≤ String.length (groups_text names))%nat.
Proof.
  induction names as [|n r IH]; [done|].
  cbn [groups_text String.length List.length]. rewrite string_length_app.
  cbn [String.length]. lia.
Qed.

Lemma name_char_not_whitespace (c : ascii) :
  UrlPatternModel.name_char c = true →
  negb (UrlPatternModel.whitespace c) = true.
Proof.
  destruct c as [[] [] [] [] [] [] [] []]; vm_compute; congruence.
Qed.

Lemma all_impl (p q : ascii → bool) (s : string) :
  (∀ c, p c = true → q c = true) → Str.all p s = true → Str.all q s = true.
Proof.
  intros Hpq. induction s as [|c s IH]; [done|].
  cbn [Str.all]. intros [Hc Hs]%andb_prop. by rewrite (Hpq c Hc), IH.
Qed.

Lemma groups_text_no_whitespace (names : list string) :
  Forall valid_name names →
  Str.all (λ c, negb (UrlPatternModel.whitespace c)) (groups_text names) = true.
Proof.
  induction 1 as [|n r [_ Hn] _ IH]; [done|].
  cbn [groups_text Str.all]. rewrite all_app. cbn [Str.all]. rewrite IH.
  rewrite (all_impl _ _ n name_char_not_whitespace Hn). reflexivity.
Qed.

Lemma names_param_groups (names : list string) :
  UrlPatternModel.names (param_group <$> names) = names.
Proof.
  induction names as [|n r IH]; [done|].
  change (n :: UrlPatternModel.names (param_group <$> r) = n :: r). by f_equal.
Qed.

(** X19: for a non-empty list of parameter names made of letters and
    digits, the template [toPattern] builds from [{ params }] compiles, in
    the reference model of the pattern primitive, to one optional group
    [(/:name)] per name, in the order given, and the compiled pattern
    declares exactly those names in that order. *)
Theorem toPattern_params_compile :
  ∀ names : list string,
    names ≠ [] → Forall valid_name names →
    UrlPatternModel.compile (toPattern (SpecParams (Some names)))
    = Ok (param_group <$> names)
    ∧ UrlPatternModel.names (param_group <$> names) = names.
Proof.
  intros names Hne Hv. split; [|apply names_param_groups].
  rewrite toPattern_text. unfold UrlPatternModel.compile.
  destruct names as [|n r]; [done|].
  change (Str.is_empty (groups_text (n :: r))) with false. cbv iota.
  rewrite groups_text_no_whitespace by done. cbn [negb].
  pose proof (groups_text_length (n :: r)) as Hl.
  assert (Hf : ∃ j, String.length (groups_text (n :: r))
                    = S (List.length (n :: r) + j)).
  { exists (String.length (groups_text (n :: r)) - S (List.length (n :: r)))%nat.
    cbn [List.length] in *. lia. }
  destruct Hf as [j ->]. by rewrite tokens_groups.
Qed.

Lemma toPattern_params_compile_witness :
  UrlPatternModel.compile (toPattern (SpecParams (Some ["id"; "tab"])))
  = Ok [param_group "id"; param_group "tab"]
  ∧ UrlPatternModel.names [param_group "id"; param_group "tab"] = ["id"; "tab"].
Proof.
  apply (toPattern_params_compile ["id"; "tab"]); [discriminate|].
  repeat constructor; discriminate.
Defined.

(** ** parsing: trailing slashes, update functions, the two revisions *)

Lemma slashes_add (m n : nat) : slashes m +:+ slashes n = slashes (m + n).
Proof.
  induction m as [|m IH]; [done|].
  change (String "/" (slashes m +:+ slashes n) = String "/" (slashes (m + n))).
  by f_equal.
Qed.

Lemma ends_with_slash_tail (c : ascii) (s : string) :
  ends_with_slash (String c s) = false → ends_with_slash s = false.
Proof. by destruct s. Qed.

Lemma all_slashes_ends (s : string) :
  Str.all Str.is_slash s = true → s ≠ "" → ends_with_slash s = true.
Proof.
  induction s as [|c s IH]; [done|].
  cbn [Str.all]. intros [Hc Hs]%andb_prop _.
  destruct s as [|d s]; [exact Hc|]. by apply IH.
Qed.

Lemma not_slashes_prefix (b : string) (i j : nat) :
  slashes i = b +:+ slashes j → ends_with_slash b = false → b = "".
Proof.
  intros H Hb. destruct b as [|c b]; [done|].
  assert (Ha : Str.all Str.is_slash (String c b +:+ slashes j) = true).
  { rewrite <- H. apply all_slashes. }
  rewrite all_app in Ha. apply andb_prop in Ha as [Ha _].
  rewrite all_slashes_ends in Hb; done.
Qed.

(** A string splits in one way only into a part that does not end with a
    slash and a run of slashes. *)
Lemma strip_unique (a b : string) (i j : nat) :
  a +:+ slashes i = b +:+ slashes j →
  ends_with_slash a = false → ends_with_slash b = false → a = b.
Proof.
  revert b. induction a as [|c a IH]; intros b H Ha Hb.
  - symmetry. by eapply not_slashes_prefix.
  - destruct b as [|d b].
    + symmetry in H. by eapply not_slashes_prefix.
    + change (String c (a +:+ slashes i) = String d (b +:+ slashes j)) in H.
      injection H as -> H. f_equal.
      apply IH; [done|by eapply ends_with_slash_tail..].
Qed.

Lemma starts_with_double_app (p x : string) :
  Str.starts_with "//" p = true → Str.starts_with "//" (p +:+ x) = true.
Proof.
  destruct p as [|a [|b p]].
  - done.
  - cbn [Str.starts_with]. by destruct (Ascii.eqb "/" a).
  - intros H. exact H.
Qed.

Lemma trimSlashes_more_trailing (p : string) (n : nat) :
  Str.starts_with "//" (p +:+ slashes n) = false →
  trimSlashes (p +:+ slashes n) = trimSlashes p.
Proof.
  intros H.
  assert (Hp : Str.starts_with "//" p = false).
  { destruct (Str.starts_with "//" p) eqn:E; [|done].
    by rewrite (starts_with_double_app p (slashes n) E) in H. }
  unfold trimSlashes.
  rewrite !replace_first_no_leading by by apply leading_alt_None.
  destruct (replace_first_trailing (p +:+ slashes n)) as (m1 & H1 & E1).
  destruct (replace_first_trailing p) as (m2 & H2 & E2).
  apply (strip_unique _ _ m1 (m2 + n)); [|done..].
  rewrite <- H1, <- slashes_add, <- string_app_assoc. by rewrite <- H2.
Qed.

(** X20: trailing slashes never change what is extracted: for a pathname
    that, with [n] more slashes appended, still does not start with two
    slashes, [toOwnParams] and [toParams] behave on the longer pathname
    exactly as on the shorter one. *)
Theorem toParams_ignores_trailing_slashes :
  ∀ (UP : UrlPatternLib) (QS : QueryStringLib) (UL : UrlLib) (w : World)
    (path : string) (n : nat) (query fragment : option string)
    (st : option obj) (pattern : option string),
    Str.starts_with "//" (path +:+ slashes n) = false →
    toOwnParams
      (Some (ArgLocation (mkLocation (Some (path +:+ slashes n)) query fragment st)))
      pattern w
    = toOwnParams
        (Some (ArgLocation (mkLocation (Some path) query fragment st))) pattern w
    ∧ toParams
        (Some (ArgLocation (mkLocation (Some (path +:+ slashes n)) query fragment st)))
        pattern w
      = toParams
          (Some (ArgLocation (mkLocation (Some path) query fragment st))) pattern w.
Proof.
  intros UP QS UL w path n query fragment st pattern H.
  assert (Ho : toOwnParams
      (Some (ArgLocation (mkLocation (Some (path +:+ slashes n)) query fragment st)))
      pattern w
    = toOwnParams
        (Some (ArgLocation (mkLocation (Some path) query fragment st))) pattern w).
  { rewrite !toOwnParams_cases. simpl.
    by rewrite (trimSlashes_more_trailing path n H). }
  split; [done|]. rewrite !toParams_cases. simpl. by rewrite Ho.
Qed.

Lemma toParams_ignores_trailing_slashes_witness :
  let w := loaded (browse "/" "") in
  toOwnParams (UP := UrlPatternModel.lib) (UL := UrlModel.lib)
    (Some (ArgLocation (mkLocation (Some ("/users/42" +:+ slashes 3)) None None None)))
    (Some "/users/:id") w
  = toOwnParams (UP := UrlPatternModel.lib) (UL := UrlModel.lib)
      (Some (ArgLocation (mkLocation (Some "/users/42") None None None)))
      (Some "/users/:id") w.
Proof.
  intros w.
  exact (proj1 (toParams_ignores_trailing_slashes UrlPatternModel.lib
    QueryStringModel.lib UrlModel.lib w "/users/42" 3 None None None
    (Some "/users/:id") eq_refl)).
Defined.

(** X21: [toUrl] with an update function extracts the current parameters
    from [history.location] against the same pattern, applies the function,
    and builds the URL of the mapping it returns, in the world the
    extraction left; when the extraction throws, the function is not
    applied.  A destination that is neither a string, an object nor a
    function behaves as the identity update. *)
Theorem toUrl_update_function :
  ∀ (UP : UrlPatternLib) (QS : QueryStringLib) (UL : UrlLib) (w : World)
    (f : obj → obj) (pattern : option string),
    toUrl (DUpdate f) pattern w
    = match toParams None pattern w with
      | (Ok current, w') => toUrl (DParams (f current)) pattern w'
      | (Throw e, w') => (Throw e, w')
      end
    ∧ toUrl DOther pattern w = toUrl (DUpdate (λ current, current)) pattern w.
Proof.
  intros UP QS UL w f pattern. split; [|reflexivity].
  assert (Hn : toParams None pattern w
               = toParams (Some (ArgLocation (history_location w))) pattern w).
  { rewrite !toParams_cases, !toOwnParams_cases. done. }
  rewrite Hn. unfold toUrl, parameterize, getCurrParams, bind, ret.
  by destruct (toParams (Some (ArgLocation (history_location w))) pattern w)
    as [[current|e] w'].
Qed.

(** X22: with a non-empty pattern the two revisions of [toParams] are the
    same operation: same outcome and same world, for every argument. *)
Theorem toParams_revisions_agree :
  ∀ (UP : UrlPatternLib) (QS : QueryStringLib) (UL : UrlLib) (w : World)
    (arg : option LocArg) (pat : string),
    pat ≠ "" →
    toParams arg (Some pat) w = toParams_v1 arg (Some pat) w.
Proof.
  intros UP QS UL w arg pat Hne.
  rewrite toParams_cases, toOwnParams_cases.
  unfold toParams_v1, bind, lift, ret.
  pose proof (locate_world arg w) as Hw.
  destruct (locate arg w) as [[l|e] w0]; simpl in *; subst w0; [|done].
  destruct pat as [|c pat]; [done|]. simpl.
  destruct (getParser (Some (String c pat)) w) as [[[parser|m]|e] w'];
    [|done..].
  simpl. by destruct (matchPathname parser (pathname l)).
Qed.

Lemma toParams_revisions_agree_witness :
  let w := loaded (browse "/users/42" "?tab=a") in
  toParams (UP := UrlPatternModel.lib) (QS := QueryStringModel.lib)
    (UL := UrlModel.lib) None (Some "/users/:id") w
  = toParams_v1 (UP := UrlPatternModel.lib) (QS := QueryStringModel.lib)
      (UL := UrlModel.lib) None (Some "/users/:id") w.
Proof.
  intros w.
  apply (toParams_revisions_agree UrlPatternModel.lib QueryStringModel.lib
           UrlModel.lib w None "/users/:id").
  discriminate.
Defined.

(** ** A required segment without a value *)

(** X23: for every pattern whose template has a required named segment
    (one outside any optional group) whose name is not a member name of
    [Object.prototype], and every parameter mapping without that segment's
    key, [toUrl] (in both revisions) throws a pattern-mismatch error to its
    caller and returns no URL. *)
Theorem toUrl_missing_required_segment :
  ∀ (QS : QueryStringLib) (UL : UrlLib) (loc : Location)
    (w : World (UP := UrlPatternModel.lib)) (pat : string)
    (a : UrlPatternModel.ast) (n : string) (p : obj),
    reachable (UP := UrlPatternModel.lib) loc w →
    UrlPatternModel.compile pat = Ok a →
    UrlPatternModel.Named n ∈ a →
    inherited n = false →
    p !! n = None →
    (∃ key, (toUrl (UP := UrlPatternModel.lib) (DParams p) (Some pat) w).1
            = Throw (PatternMismatchError key))
    ∧ (∃ key, (toUrl_v1 (UP := UrlPatternModel.lib) (DParams p) (Some pat) w).1
              = Throw (PatternMismatchError key)).
Proof.
  intros QS UL loc w pat a n p Hr Hc Hin Hn Hp.
  apply reachable_agree in Hr as [Hco _].
  assert (Hpat : inherited pat = false).
  { destruct (inherited pat) eqn:Hi; [|done].
    by destruct (inherited_pattern_static pat a n Hi Hc). }
  pose proof (getParser_explicit (UP := UrlPatternModel.lib) pat w Hco Hpat) as Hg.
  simpl in Hg. rewrite Hc in Hg.
  destruct (stringify_missing (pathnameParams (UrlPatternModel.names a) p) a n Hin)
    as [key Hkey].
  { rewrite pathnameParams_absent; [done| |done|done]. by apply named_in_names. }
  split; exists key.
  - unfold toUrl, parameterize, stringify, bind, ret, lift. simpl.
    destruct (getParser (Some pat) w) as [[q|e] w'] eqn:E; simpl in Hg;
      [|done].
    injection Hg as ->. simpl. by rewrite Hkey.
  - unfold toUrl_v1, parameterize_v1, stringify_v1, bind, ret, lift. simpl.
    destruct (getParser (Some pat) w) as [[q|e] w'] eqn:E; simpl in Hg;
      [|done].
    injection Hg as ->. simpl. by rewrite Hkey.
Qed.

Lemma toUrl_missing_required_segment_witness :
  ∃ key, (toUrl (UP := UrlPatternModel.lib) (QS := QueryStringModel.lib)
            (UL := UrlModel.lib) (DParams {[ "tab" := VStr "profile" ]})
            (Some "/users/:id") (loaded (browse "/" ""))).1
         = Throw (PatternMismatchError key).
Proof.
  refine (proj1 (toUrl_missing_required_segment QueryStringModel.lib UrlModel.lib
    (browse "/" "") (loaded (browse "/" "")) "/users/:id"
    [UrlPatternModel.Static "/users/"; UrlPatternModel.Named "id"] "id"
    {[ "tab" := VStr "profile" ]} _ _ _ _ _)).
  - apply reach_load. reflexivity.
  - vm_compute. reflexivity.
  - apply elem_of_cons. right. apply elem_of_cons. by left.
  - reflexivity.
  - vm_compute. reflexivity.
Defined.
